(** * CadiDAQ: the settings synchronisation engine of [src/main.cpp]

    A shallow embedding of [programWrapper] (both overloads),
    [programMaskWrapper], [programSettings] and the per-section loop of
    [read_ini_file], together with the properties of the engine.

    C++ effects are made explicit:
    - a [caen::Error] in flight, [exit] and the dereference of a null
      [caen::Digitizer*] are the non-returning outcomes of a computation;
    - the device behind a handle is a state of type [D] that every accessor
      call may change;
    - what the program does at its two observable boundaries (accessor calls
      on the device, records handed to the log sink) is collected, in program
      order, as a list of events. *)

From Stdlib Require Import ZArith List String Ascii Bool Lia.
From Stdlib Require Import DecimalString.
Import ListNotations.

Open Scope string_scope.
Open Scope list_scope.
Open Scope Z_scope.

(** ** Basic data *)

(** [enum class comDirection {READING, WRITING}] *)
Inductive comDirection : Type := READING | WRITING.

(** [uint32_t]: an integer kept in [0, 2^32) by wrap-around. *)
Definition uint32 := Z.
Definition wrap32 (z : Z) : uint32 := z mod 2 ^ 32.

(** [caen::Error], as far as [main.cpp] looks at it: [what()] and [where()]. *)
Record Error : Type := mkError { what : string; where_ : string }.

(** The register accessors of [caen::Digitizer] that [main.cpp] names. *)
Inductive Accessor : Type :=
| SetSWTriggerMode | GetSWTriggerMode
| SetChannelEnableMask | GetChannelEnableMask
| SetGroupEnableMask | GetGroupEnableMask.

Definition is_setter (a : Accessor) : bool :=
  match a with
  | SetSWTriggerMode | SetChannelEnableMask | SetGroupEnableMask => true
  | _ => false
  end.

Definition is_getter (a : Accessor) : bool := negb (is_setter a).

(** The capability facts printed after a connection is made. *)
Record BoardInfo : Type := mkBoardInfo {
  bi_modelName : string;
  bi_modelNo : Z;
  bi_channels : Z;
  bi_groups : Z;
  bi_ADCbits : Z;
  bi_license : string;
  bi_formFactor : Z;
  bi_familyCode : Z;
  bi_serialNumber : Z;
  bi_ROCfirmwareRel : string;
  bi_AMCfirmwareRel : string;
  bi_PCBrevision : Z
}.

(** ** Log records

    One constructor per [MAIN_LOG_*] statement of [main.cpp]; the streamed
    operands are kept as arguments instead of being pasted into one string. *)
Inductive severity : Type := debug | info | warning | error | fatal.

Inductive Message : Type :=
| MsgCaughtCommunicating (model : string) (serial : Z)        (* line 59 *)
| MsgCallingWith (where' arg what' : string)                  (* line 61 *)
| MsgCalling (where' what' : string)                          (* line 63 *)
| MsgMaskNotMapped (name : string) (mask : uint32)            (* line 88 *)
| MsgFound (NDigitizer : Z)                                   (* line 133 *)
| MsgEstablishing (digName : string) (linkType : Z)
                  (linkNum conetNode : Z) (vme : string)      (* line 153 *)
| MsgCaughtEstablishing (name what' : string)                 (* line 162 *)
| MsgCheckConnection                                          (* line 165 *)
| MsgConnected (digName : string) (board : BoardInfo)         (* line 171 *)
| MsgUnknownSetting (section key value : string).             (* line 191 *)

(** ** Events at the two boundaries *)
Inductive Event : Type :=
| Call (a : Accessor) (arg : option Z) (raised : option Error)
| Log (s : severity) (m : Message).

Definition is_error_record (ev : Event) : bool :=
  match ev with Log error _ => true | _ => false end.

Definition is_warning_record (ev : Event) : bool :=
  match ev with Log warning _ => true | _ => false end.

(** The accessors invoked, in order. *)
Fixpoint calls (t : list Event) : list Accessor :=
  match t with
  | [] => []
  | Call a _ _ :: t' => a :: calls t'
  | Log _ _ :: t' => calls t'
  end.

(** The accessor calls that raised, with what they raised. *)
Fixpoint failures (t : list Event) : list (Accessor * Error) :=
  match t with
  | [] => []
  | Call a _ (Some e) :: t' => (a, e) :: failures t'
  | _ :: t' => failures t'
  end.

Definition error_records (t : list Event) : list Event :=
  filter is_error_record t.

(** ** Computations

    [M S A]: a computation over a state [S] that returns an [A], throws a
    [caen::Error], leaves the process through [exit], or runs into undefined
    behaviour; in each case it has emitted some events. *)
Inductive Outcome (A : Type) : Type :=
| Returned (a : A)
| Thrown (e : Error)
| Exited (status : Z)
| Undefined.
Arguments Returned {A} a.
Arguments Thrown {A} e.
Arguments Exited {A} status.
Arguments Undefined {A}.

Record Run (S A : Type) : Type := mkRun {
  outcome : Outcome A;
  final : S;
  emitted : list Event
}.
Arguments mkRun {S A} outcome final emitted.
Arguments outcome {S A} r.
Arguments final {S A} r.
Arguments emitted {S A} r.

Definition M (S A : Type) : Type := S -> Run S A.

Definition ret {S A} (a : A) : M S A := fun s => mkRun (Returned a) s [].

Definition bind {S A B} (m : M S A) (f : A -> M S B) : M S B :=
  fun s =>
    let r := m s in
    match outcome r with
    | Returned a =>
        let r' := f a (final r) in
        mkRun (outcome r') (final r') (emitted r ++ emitted r')
    | Thrown e => mkRun (Thrown e) (final r) (emitted r)
    | Exited c => mkRun (Exited c) (final r) (emitted r)
    | Undefined => mkRun Undefined (final r) (emitted r)
    end.

(** [try { m } catch (caen::Error& e) { h e }] *)
Definition try_catch {S A} (m : M S A) (h : Error -> M S A) : M S A :=
  fun s =>
    let r := m s in
    match outcome r with
    | Thrown e =>
        let r' := h e (final r) in
        mkRun (outcome r') (final r') (emitted r ++ emitted r')
    | _ => r
    end.

Definition log {S} (sev : severity) (m : Message) : M S unit :=
  fun s => mkRun (Returned tt) s [Log sev m].

Definition exit {S A} (status : Z) : M S A :=
  fun s => mkRun (Exited status) s [].

Definition gets {S A} (f : S -> A) : M S A :=
  fun s => mkRun (Returned (f s)) s [].

Declare Scope monad_scope.
Delimit Scope monad_scope with monad.
Notation "x <- c1 ;; c2" := (bind c1 (fun x => c2))
  (at level 61, c1 at next level, right associativity) : monad_scope.
Notation "c1 ;; c2" := (bind c1 (fun _ => c2))
  (at level 61, right associativity) : monad_scope.
Open Scope monad_scope.

(** [std::to_string] on the integer value of a register. *)
Definition std_to_string (z : Z) : string :=
  NilZero.string_of_int (Z.to_int z).

(** The value types the accessors are instantiated at ([uint32_t], the
    trigger-mode enumeration) all convert to an integer, which is what
    [std::to_string(value)] prints. *)
Class RegisterValue (T : Type) : Type := as_Z : T -> Z.

#[export] Instance RegisterValue_uint32 : RegisterValue uint32 := fun z => z.

(** ** The device boundary

    [caen::Digitizer] is declared in [caen.hpp], outside [main.cpp]: the
    driver behind a handle is a parameter.  Every accessor takes the device
    state and gives back either the [caen::Error] it raised or its result,
    and the state the device is in afterwards. *)
Class Digitizer (D TM : Type) : Type := {
  boardInfo : D -> BoardInfo;
  hw_setSWTriggerMode : TM -> D -> (Error + unit) * D;
  hw_getSWTriggerMode : D -> (Error + TM) * D;
  hw_setChannelEnableMask : uint32 -> D -> (Error + unit) * D;
  hw_getChannelEnableMask : D -> (Error + uint32) * D;
  hw_setGroupEnableMask : uint32 -> D -> (Error + unit) * D;
  hw_getGroupEnableMask : D -> (Error + uint32) * D
}.

Section Device.
Context {D TM : Type} `{RegisterValue TM} `{Digitizer D TM}.

(** One accessor call on the device: the call is an event, whether it
    returns or raises. *)
Definition invoke {A} (a : Accessor) (arg : option Z)
           (op : D -> (Error + A) * D) : M D A :=
  fun d =>
    match op d with
    | (inr x, d') => mkRun (Returned x) d' [Call a arg None]
    | (inl e, d') => mkRun (Thrown e) d' [Call a arg (Some e)]
    end.

(** A member function [void set(T)] and a member function [T get()] of
    [caen::Digitizer], over the driver operation behind each. *)
Definition setter {T} `{RegisterValue T} (a : Accessor)
           (op : T -> D -> (Error + unit) * D) : T -> M D unit :=
  fun v => invoke a (Some (as_Z v)) (op v).
Definition getter {T} (a : Accessor) (op : D -> (Error + T) * D) : M D T :=
  invoke a None op.

Definition setSWTriggerMode : TM -> M D unit :=
  setter SetSWTriggerMode hw_setSWTriggerMode.
Definition getSWTriggerMode : M D TM :=
  getter GetSWTriggerMode hw_getSWTriggerMode.
Definition setChannelEnableMask : uint32 -> M D unit :=
  setter SetChannelEnableMask hw_setChannelEnableMask.
Definition getChannelEnableMask : M D uint32 :=
  getter GetChannelEnableMask hw_getChannelEnableMask.
Definition setGroupEnableMask : uint32 -> M D unit :=
  setter SetGroupEnableMask hw_setGroupEnableMask.
Definition getGroupEnableMask : M D uint32 :=
  getter GetGroupEnableMask hw_getGroupEnableMask.

Definition modelName : M D string := gets (fun d => bi_modelName (boardInfo d)).
Definition serialNumber : M D Z := gets (fun d => bi_serialNumber (boardInfo d)).
Definition groups : M D Z := gets (fun d => bi_groups (boardInfo d)).
Definition channels : M D Z := gets (fun d => bi_channels (boardInfo d)).
End Device.

(** ** 4.1 / 4.2: [programWrapper] *)
Section FieldProgrammer.
Context {D TM : Type} `{RegisterValue TM} `{Digitizer D TM}.
Context {T : Type} `{RegisterValue T}.

(** [template <typename T> void programWrapper(instance, write, read,
    T &value, direction)], lines 47-65.  The reference [value] is passed
    in and its content after the call is returned. *)
Definition programWrapper (write : T -> M D unit) (read : M D T)
           (value : T) (direction : comDirection) : M D T :=
  try_catch
    (match direction with
     | WRITING => write value ;; ret value
     | READING => v <- read ;; ret v
     end)
    (fun e =>
       model <- modelName ;;
       serial <- serialNumber ;;
       log error (MsgCaughtCommunicating model serial) ;;
       match direction with
       | WRITING =>
           log error (MsgCallingWith (where_ e) (std_to_string (as_Z value)) (what e))
       | READING =>
           log error (MsgCalling (where_ e) (what e))
       end ;;
       ret value).

(** The overload for [boost::optional<T> &value], lines 67-79.  [k] is the
    content of the local [T k;], which the source declares without an
    initialiser. *)
Definition programWrapper_optional (k : T)
           (write : T -> M D unit) (read : M D T)
           (value : option T) (direction : comDirection) : M D (option T) :=
  match value with
  | Some v =>
      v' <- programWrapper write read v direction ;;
      ret (Some v')
  | None =>
      match direction with
      | READING =>
          k' <- programWrapper write read k direction ;;
          ret (Some k')
      | WRITING => ret None
      end
  end.
End FieldProgrammer.


(** ** 4.3: mask reconciliation *)

(** [std::vector<boost::optional<bool>>] *)
Definition ChannelVector : Type := list (option bool).

(** The two conversions are declared in [helper.hpp], outside [main.cpp].
    [programMaskWrapper] only needs them as functions: what they compute is
    a parameter of the engine, and [Module SpecHelper] below gives the
    functions the specification describes. *)
Class MaskHelper : Type := {
  vec2Mask : ChannelVector -> Z -> uint32;
  mask2Vec : uint32 -> ChannelVector -> Z -> ChannelVector
}.

Module SpecHelper.

(** Modelled from the spec: the number of channels one mask bit covers in
    [vec2Mask] and [mask2Vec] of [helper.hpp], which is missing.  Section 4.3
    maps channel [i] to group [i / channelsPerGroup] and has group count 1
    degenerate to one bit per channel; the scenarios of section 8 divide the
    channel count by the group count (8 channels in 2 groups: 4 per group). *)
Definition channelsPerGroup (nchannels G : Z) : Z :=
  if G =? 1 then 1 else nchannels / G.

(** Modelled from the spec: the loop of [vec2Mask] of [helper.hpp], which is
    missing: "for each channel whose optional is set and true, set the bit of
    the channel's enclosing group". *)
Fixpoint vec2Mask_from (i cpg : Z) (vec : ChannelVector) (mask : uint32) : uint32 :=
  match vec with
  | [] => mask
  | Some true :: rest =>
      vec2Mask_from (i + 1) cpg rest
                    (wrap32 (Z.lor mask (Z.shiftl 1 (i / cpg))))
  | _ :: rest => vec2Mask_from (i + 1) cpg rest mask
  end.

(** Modelled from the spec: [vec2Mask] of [helper.hpp], which is missing
    ([vectorToMask] of section 4.3). *)
Definition vec2Mask (vec : ChannelVector) (G : Z) : uint32 :=
  vec2Mask_from 0 (channelsPerGroup (Z.of_nat (List.length vec)) G) vec 0.

(** Modelled from the spec: the loop of [mask2Vec] of [helper.hpp], which is
    missing: "for each channel, set its optional boolean to whether its
    enclosing group's bit is set". *)
Fixpoint mask2Vec_from (i cpg : Z) (mask : uint32) (vec : ChannelVector) : ChannelVector :=
  match vec with
  | [] => []
  | _ :: rest =>
      Some (Z.testbit mask (i / cpg)) :: mask2Vec_from (i + 1) cpg mask rest
  end.

(** Modelled from the spec: [mask2Vec] of [helper.hpp], which is missing
    ([maskToVector] of section 4.3). *)
Definition mask2Vec (mask : uint32) (vec : ChannelVector) (G : Z) : ChannelVector :=
  mask2Vec_from 0 (channelsPerGroup (Z.of_nat (List.length vec)) G) mask vec.

Definition helper : MaskHelper :=
  Build_MaskHelper vec2Mask mask2Vec.

End SpecHelper.

(** Modelled from the spec: [cadidaq::registerSettings] of [settings.hpp],
    which is missing, reduced to the two members [programSettings] touches:
    an optional scalar field and the per-channel enable vector (section 3:
    fields hold "either a concrete value or unset", enable masks are "one
    boolean per channel"). *)
Record registerSettings (TM : Type) : Type := mkRegisterSettings {
  swTriggerMode : option TM;
  chEnable : ChannelVector
}.
Arguments mkRegisterSettings {TM} swTriggerMode chEnable.
Arguments swTriggerMode {TM} r.
Arguments chEnable {TM} r.

Section Engine.
Context {D TM : Type} `{RegisterValue TM} `{Digitizer D TM} `{MaskHelper}.

(** [programMaskWrapper], lines 81-94.  The parameters [write] and [read]
    are received and, as in the source, not used: line 90 names the
    channel-enable pair. *)
Definition programMaskWrapper
           (write : uint32 -> M D unit) (read : M D uint32)
           (vec : ChannelVector) (name : string)
           (direction : comDirection) : M D ChannelVector :=
  let mask : uint32 := 0 in
  mask <- match direction with
          | WRITING => g <- groups ;; ret (vec2Mask vec g)
          | READING => ret mask
          end ;;
  (if negb (mask =? vec2Mask vec 1)
   then log warning (MsgMaskNotMapped name mask)
   else ret tt) ;;
  mask <- programWrapper setChannelEnableMask getChannelEnableMask mask direction ;;
  match direction with
  | READING => g <- groups ;; ret (mask2Vec mask vec g)
  | WRITING => ret vec
  end.

(** [programSettings], lines 97-108.  [k] stands for the uninitialised local
    of the optional overload. *)
Definition programSettings (k : TM) (settings : registerSettings TM)
           (direction : comDirection) : M D (registerSettings TM) :=
  sw <- programWrapper_optional k setSWTriggerMode getSWTriggerMode
                                (swTriggerMode settings) direction ;;
  g <- groups ;;
  ch <- (if g =? 1
         then programMaskWrapper setChannelEnableMask getChannelEnableMask
                                 (chEnable settings) "chEnable" direction
         else programMaskWrapper setGroupEnableMask getGroupEnableMask
                                 (chEnable settings) "chEnable" direction) ;;
  ret (mkRegisterSettings sw ch).

End Engine.


(** ** [read_ini_file]: the configuration cycle *)

(** A section of the parsed [.ini] tree: its children, key and value. *)
Definition Node : Type := list (string * string).
(** The [pt::iptree] read from the file: the sections in file order. *)
Definition PTree : Type := list (string * Node).

(** [boost::algorithm::to_lower_copy] and [boost::iequals], on ASCII. *)
Definition to_lower_char (c : ascii) : ascii :=
  let n := nat_of_ascii c in
  if (65 <=? n)%nat && (n <=? 90)%nat then ascii_of_nat (n + 32) else c.

Fixpoint to_lower_copy (s : string) : string :=
  match s with
  | EmptyString => EmptyString
  | String c rest => String (to_lower_char c) (to_lower_copy rest)
  end.

Definition iequals (a b : string) : bool :=
  String.eqb (to_lower_copy a) (to_lower_copy b).

(** The two tests at the head of both loops (lines 127-130, 140-144). *)
Definition skipped (name : string) : bool :=
  iequals (to_lower_copy name) "daq" || iequals (to_lower_copy name) "general".

(** Modelled from the spec: [cadidaq::connectionSettings] of [settings.hpp],
    which is missing, as the members [read_ini_file] reads once [parse] and
    [verify] have run (the configuration source hands over validated values,
    section 6). *)
Record connectionSettings : Type := mkConnectionSettings {
  getName : string;
  linkType : Z;
  linkNum : Z;
  conetNode : Z;
  vmeBaseAddress : Z
}.

(** The configuration source of section 6, a parameter: [parse] followed by
    [verify] of the two settings classes.  Each gives the settings object
    and the node it was handed, without the keys it consumed. *)
Class ConfigSource (TM : Type) : Type := {
  parse_connection : string -> Node -> connectionSettings * Node;
  parse_register : string -> Z -> Node -> registerSettings TM * Node
}.

(** What [caen::Digitizer::open] does: it throws, or it returns a pointer,
    which is null ([None]) or points to a device. *)
Inductive OpenResult (D : Type) : Type :=
| OpenThrows (e : Error)
| OpenReturns (p : option D).
Arguments OpenThrows {D} e.
Arguments OpenReturns {D} p.

(** [EXIT_FAILURE] of [<cstdlib>], 1 on the platforms the program builds on. *)
Definition EXIT_FAILURE : Z := 1.

Section Cycle.
Context {D TM : Type} `{RegisterValue TM} `{Digitizer D TM} `{MaskHelper}
        `{ConfigSource TM}.
(** The hardware reachable from the host: the outcome of opening a link. *)
Variable open_link : Z -> Z -> Z -> Z -> OpenResult D.
(** The content of the uninitialised local of the optional overload. *)
Variable k : TM.

Definition open (lt ln cn vme : Z) : M unit (option D) :=
  fun s =>
    match open_link lt ln cn vme with
    | OpenThrows e => mkRun (Thrown e) s []
    | OpenReturns p => mkRun (Returned p) s []
    end.

(** Code that dereferences [digitizer]: on the null pointer the behaviour is
    undefined, otherwise it runs on the device pointed to. *)
Definition with_handle {A} (digitizer : option D) (m : M D A) : M unit A :=
  fun s =>
    match digitizer with
    | None => mkRun Undefined s []
    | Some d => let r := m d in mkRun (outcome r) s (emitted r)
    end.

(** Lines 190-192. *)
Fixpoint warn_unknown (section : string) (node : Node) : M D unit :=
  match node with
  | [] => ret tt
  | (key, value) :: rest =>
      log warning (MsgUnknownSetting section key value) ;;
      warn_unknown section rest
  end.

(** Lines 170-194: what is done with a handle once the connection attempt is
    over. *)
Definition configure (digName : string) (node : Node) : M D (registerSettings TM) :=
  board <- gets boardInfo ;;
  log debug (MsgConnected digName board) ;;
  nchannels <- channels ;;
  let (regsettings, node) := parse_register digName nchannels node in
  regsettings <- programSettings k regsettings WRITING ;;
  warn_unknown digName node ;;
  regsettings <- programSettings k regsettings READING ;;
  ret regsettings.

(** Lines 158-169: the connection attempt.  [digitizer] is the null pointer
    the variable is initialised with on line 152; when [open] throws, the
    assignment of line 159 has not taken place. *)
Definition connect (linksettings : connectionSettings) : M unit (option D) :=
  let digitizer : option D := None in
  try_catch
    (open (linkType linksettings) (linkNum linksettings)
          (conetNode linksettings) (vmeBaseAddress linksettings))
    (fun e =>
       log error (MsgCaughtEstablishing (getName linksettings) (what e)) ;;
       match digitizer with
       | None => log error MsgCheckConnection ;; exit EXIT_FAILURE
       | Some _ => ret digitizer
       end).

(** Lines 146-196: the body of the second loop for a section that is not
    skipped.  Line 147 finds the node of the section again under its name,
    with [get_child(digName)]; the body takes the node of the section
    directly, which is the node found for the sections that [found_by_name]
    below describes. *)
Definition section_body (section : string * Node)
  : M unit (connectionSettings * registerSettings TM) :=
  let digName := fst section in
  let (linksettings, node) := parse_connection digName (snd section) in
  log info (MsgEstablishing digName (linkType linksettings)
                            (linkNum linksettings) (conetNode linksettings)
                            (std_to_string (vmeBaseAddress linksettings))) ;;
  digitizer <- connect linksettings ;;
  regsettings <- with_handle digitizer (configure digName node) ;;
  ret (linksettings, regsettings).

(** Lines 138-197: the second loop, with the two vectors it fills. *)
Fixpoint sections_loop (tree : PTree)
         (vecLnkSettings : list connectionSettings)
         (vecRegSettings : list (registerSettings TM))
  : M unit (list connectionSettings * list (registerSettings TM)) :=
  match tree with
  | [] => ret (vecLnkSettings, vecRegSettings)
  | section :: rest =>
      if skipped (fst section)
      then sections_loop rest vecLnkSettings vecRegSettings
      else
        r <- section_body section ;;
        sections_loop rest (vecLnkSettings ++ [fst r]) (vecRegSettings ++ [snd r])
  end.

(** Lines 125-132: the first loop. *)
Definition NDigitizer (tree : PTree) : Z :=
  Z.of_nat (List.length (filter (fun section => negb (skipped (fst section))) tree)).

(** [read_ini_file], from the parsed tree on.  The two vectors it returns
    are what lines 199-209 serialise to [output.ini]. *)
Definition read_ini_file (iniPTree : PTree)
  : M unit (list connectionSettings * list (registerSettings TM)) :=
  log info (MsgFound (NDigitizer iniPTree)) ;;
  sections_loop iniPTree [] [].

End Cycle.


(** ** A device stub

    A register file behind the accessors of section 6, with a counter of the
    accessor calls it has received; the call whose number is [fail_at]
    raises, every other call succeeds. *)
Module Stub.

Record Device : Type := mkDevice {
  board : BoardInfo;
  served : nat;
  fail_at : option nat;
  reg_swTriggerMode : Z;
  reg_channelEnable : uint32;
  reg_groupEnable : uint32
}.

Definition fails_now (d : Device) : bool :=
  match fail_at d with
  | Some n => Nat.eqb n (served d)
  | None => false
  end.

Definition count (d : Device) : Device :=
  mkDevice (board d) (S (served d)) (fail_at d)
           (reg_swTriggerMode d) (reg_channelEnable d) (reg_groupEnable d).

Definition serve {A} (name : string) (act : Device -> A * Device)
           (d : Device) : (Error + A) * Device :=
  if fails_now d
  then (inl (mkError "CommError" name), count d)
  else let (x, d') := act (count d) in (inr x, d').

Definition store_swTriggerMode (v : Z) (d : Device) : unit * Device :=
  (tt, mkDevice (board d) (served d) (fail_at d)
                v (reg_channelEnable d) (reg_groupEnable d)).
Definition store_channelEnable (v : uint32) (d : Device) : unit * Device :=
  (tt, mkDevice (board d) (served d) (fail_at d)
                (reg_swTriggerMode d) v (reg_groupEnable d)).
Definition store_groupEnable (v : uint32) (d : Device) : unit * Device :=
  (tt, mkDevice (board d) (served d) (fail_at d)
                (reg_swTriggerMode d) (reg_channelEnable d) v).

Definition digitizer : Digitizer Device Z := {|
  boardInfo := board;
  hw_setSWTriggerMode := fun v => serve "SetSWTriggerMode" (store_swTriggerMode v);
  hw_getSWTriggerMode := serve "GetSWTriggerMode" (fun d => (reg_swTriggerMode d, d));
  hw_setChannelEnableMask := fun v => serve "SetChannelEnableMask" (store_channelEnable v);
  hw_getChannelEnableMask := serve "GetChannelEnableMask" (fun d => (reg_channelEnable d, d));
  hw_setGroupEnableMask := fun v => serve "SetGroupEnableMask" (store_groupEnable v);
  hw_getGroupEnableMask := serve "GetGroupEnableMask" (fun d => (reg_groupEnable d, d))
|}.

(** A board with 8 channels in [g] groups. *)
Definition board8 (g : Z) : BoardInfo :=
  mkBoardInfo "V17xx" 1740 8 g 12 "none" 0 0 42 "4.17" "1.0" 3.

(** A device in its power-on state. *)
Definition fresh (g : Z) (fail : option nat) : Device :=
  mkDevice (board8 g) 0 fail 0 0 0.

(** The vector of [n] channels in which exactly the channels of [on] are set
    and true, the others unset. *)
Fixpoint enable_from (i : nat) (n : nat) (on : list nat) : ChannelVector :=
  match n with
  | O => []
  | S n' =>
      (if existsb (Nat.eqb i) on then Some true else None)
        :: enable_from (S i) n' on
  end.
Definition enable (n : nat) (on : list nat) : ChannelVector := enable_from 0 n on.

(** A configuration source: a link is described by [linkNum] alone, the
    register keys it knows are [swTriggerMode] and [chEnable]. *)
Definition lookup (key : string) (node : Node) : option string :=
  match find (fun kv => iequals (fst kv) key) node with
  | Some kv => Some (snd kv)
  | None => None
  end.
Definition erase (key : string) (node : Node) : Node :=
  filter (fun kv => negb (iequals (fst kv) key)) node.

Definition source : ConfigSource Z := {|
  parse_connection := fun name node =>
    (mkConnectionSettings name 0
       (match lookup "linkNum" node with Some "1" => 1 | Some "2" => 2 | _ => 0 end)
       0 0,
     erase "linkNum" node);
  parse_register := fun name nchannels node =>
    (mkRegisterSettings
       (match lookup "swTriggerMode" node with Some _ => Some 1 | None => None end)
       (match lookup "chEnable" node with
        | Some _ => enable (Z.to_nat nchannels) [0%nat; 5%nat]
        | None => enable (Z.to_nat nchannels) []
        end),
     erase "chEnable" (erase "swTriggerMode" node))
|}.

(** The hardware on the host: link 0 reaches a healthy ungrouped board,
    link 1 is unplugged, link 2 stands for a driver that hands back a null
    pointer without throwing. *)
Definition lab (lt ln cn vme : Z) : OpenResult Device :=
  if ln =? 0 then OpenReturns (Some (fresh 1 None))
  else if ln =? 1 then OpenThrows (mkError "CommError" "OpenDigitizer")
  else OpenReturns None.

(** The same host with a driver that keeps the contract of [open]: a
    device or an exception, never a null pointer. *)
Definition safe_lab (lt ln cn vme : Z) : OpenResult Device :=
  if ln =? 1 then OpenThrows (mkError "CommError" "OpenDigitizer")
  else OpenReturns (Some (fresh 1 None)).

(** A configuration file with a skipped section, a board that answers and
    a board that is unplugged, followed by one more board. *)
Definition ini : PTree :=
  [ ("daq", [("rate", "10")]);
    ("dig0", [("linkNum", "0"); ("swTriggerMode", "1"); ("colour", "red")]);
    ("dig1", [("linkNum", "1")]);
    ("dig2", [("linkNum", "0")]) ].

End Stub.


(** ** Vocabulary of the properties *)

(** [bool(value)] of a [boost::optional]. *)
Definition is_set {T} (value : option T) : bool :=
  match value with Some _ => true | None => false end.

(** The two records the handler of [programWrapper] writes for the error
    [e], on a board identified by [board], with [arg] the value a setter was
    called with. *)
Definition error_report (board : BoardInfo) (direction : comDirection)
           (e : Error) (arg : Z) : list Event :=
  [ Log error (MsgCaughtCommunicating (bi_modelName board) (bi_serialNumber board));
    Log error (match direction with
               | WRITING => MsgCallingWith (where_ e) (std_to_string arg) (what e)
               | READING => MsgCalling (where_ e) (what e)
               end) ].

(** The accessors one pass of [programSettings] goes through, in order, for
    a settings record whose optional field is set or not. *)
Definition pass_calls (direction : comDirection) (sw_set : bool) : list Accessor :=
  match direction with
  | WRITING =>
      (if sw_set then [SetSWTriggerMode] else []) ++ [SetChannelEnableMask]
  | READING => [GetSWTriggerMode; GetChannelEnableMask]
  end.

(** The warnings of lines 190-192 for the keys left in a node. *)
Definition unknown_warnings (section : string) (node : Node) : list Event :=
  map (fun kv => Log warning (MsgUnknownSetting section (fst kv) (snd kv))) node.

(** The mask [programMaskWrapper] holds when it reaches its test: derived
    from the vector when writing, the initial 0 when reading. *)
Definition start_mask {D TM} `{Digitizer D TM} `{MaskHelper}
           (vec : ChannelVector) (direction : comDirection) (d : D) : uint32 :=
  match direction with
  | WRITING => vec2Mask vec (bi_groups (boardInfo d))
  | READING => 0
  end.

(** The accessor of a pair that a direction selects. *)
Definition accessor_of (direction : comDirection) (a_set a_get : Accessor) : Accessor :=
  match direction with WRITING => a_set | READING => a_get end.

(** What one run of the plain [programWrapper] on the accessor [a] leaves
    in the trace: the call, and when the call raised, its report. *)
Inductive field_events (direction : comDirection) (a : Accessor) : list Event -> Prop :=
| field_synchronised (arg : option Z) :
    field_events direction a [Call a arg None]
| field_failed (arg : option Z) (e : Error) (board : BoardInfo) (z : Z) :
    field_events direction a
                 (Call a arg (Some e) :: error_report board direction e z).

(** [reports direction fs recs]: the records [recs] are the reports of the
    failures [fs], one report each, in the same order, and nothing else. *)
Fixpoint reports (direction : comDirection) (fs : list (Accessor * Error))
         (recs : list Event) : Prop :=
  match fs with
  | [] => recs = []
  | (_, e) :: fs' =>
      exists board z recs',
        recs = error_report board direction e z ++ recs' /\
        reports direction fs' recs'
  end.

(** The link a section describes. *)
Definition link_of {TM} `{ConfigSource TM} (section : string * Node)
  : connectionSettings :=
  fst (parse_connection (fst section) (snd section)).

(** What [open] does on the link [ls]. *)
Definition opened {D} (open_link : Z -> Z -> Z -> Z -> OpenResult D)
           (ls : connectionSettings) : OpenResult D :=
  open_link (linkType ls) (linkNum ls) (conetNode ls) (vmeBaseAddress ls).

(** The three records of a connection that fails. *)
Definition refusal (digName : string) (ls : connectionSettings) (e : Error)
  : list Event :=
  [ Log info (MsgEstablishing digName (linkType ls) (linkNum ls) (conetNode ls)
                              (std_to_string (vmeBaseAddress ls)));
    Log error (MsgCaughtEstablishing (getName ls) (what e));
    Log error MsgCheckConnection ].

(** The accessor calls of a trace, with their arguments and outcomes, and
    the log records of a trace. *)
Definition is_call (ev : Event) : bool :=
  match ev with Call _ _ _ => true | Log _ _ => false end.
Definition call_events (t : list Event) : list Event := filter is_call t.
Definition log_records (t : list Event) : list Event :=
  filter (fun ev => negb (is_call ev)) t.

(** The sections the second loop of [read_ini_file] works on. *)
Definition processed (tree : PTree) : PTree :=
  filter (fun section => negb (skipped (fst section))) tree.

(** [get_child] of line 147 reads the name it is given as a path, with
    separator [.]; the empty path is the tree itself, and keys of an
    [iptree] compare without case.  [found_by_name tree section]: the name
    of [section] is a single key, not empty, and one section of [tree] alone
    goes by it.  For such a section the node that [get_child] finds is the
    section's own. *)
Fixpoint has_dot (name : string) : bool :=
  match name with
  | EmptyString => false
  | String c rest => (Ascii.eqb c "." || has_dot rest)%bool
  end.

Definition found_by_name (tree : PTree) (section : string * Node) : bool :=
  (negb (String.eqb (fst section) "")
   && negb (has_dot (fst section))
   && Nat.eqb (List.length (filter (fun other => iequals (fst other) (fst section))
                                   tree)) 1)%bool.

(** Whether the link of a section opens to a device. *)
Definition connects {D TM} `{ConfigSource TM}
           (open_link : Z -> Z -> Z -> Z -> OpenResult D)
           (section : string * Node) : bool :=
  match opened open_link (link_of section) with
  | OpenReturns (Some _) => true
  | _ => false
  end.

(** The sections the second loop gets to: those that are not skipped, up to
    and including the first whose link does not open to a device. *)
Fixpoint attempted {D TM} `{ConfigSource TM}
         (open_link : Z -> Z -> Z -> Z -> OpenResult D) (tree : PTree) : PTree :=
  match tree with
  | [] => []
  | section :: rest =>
      if skipped (fst section) then attempted open_link rest
      else if connects open_link section
           then section :: attempted open_link rest
           else [section]
  end.

(** The events of the loop body on one section. *)
Definition cycle_events {D TM} `{RegisterValue TM} `{Digitizer D TM}
           `{MaskHelper} `{ConfigSource TM}
           (open_link : Z -> Z -> Z -> Z -> OpenResult D) (k : TM)
           (section : string * Node) : list Event :=
  emitted (section_body open_link k section tt).

(** * Properties *)

#[local] Existing Instance Stub.digitizer.
#[local] Existing Instance Stub.source.
#[local] Existing Instance SpecHelper.helper.

Ltac unfold_run :=
  unfold programWrapper_optional, programWrapper, setter, getter, invoke,
         try_catch, bind, ret, log, gets, modelName, serialNumber, groups,
         channels.

(** ** The conversions of the specification, on its scenarios (section 8) *)

(** 8 channels, ungrouped, channels 0, 2 and 4 enabled: mask [0b00010101],
    and that mask read back marks exactly those channels. *)
Example scenario_ungrouped :
  SpecHelper.vec2Mask (Stub.enable 8 [0%nat; 2%nat; 4%nat]) 1 = 21 /\
  SpecHelper.mask2Vec 21 (Stub.enable 8 []) 1
  = [Some true; Some false; Some true; Some false;
     Some true; Some false; Some false; Some false].
Proof. split; reflexivity. Qed.

(** 8 channels in 2 groups of 4, channels 0 and 5 enabled: group mask
    [0b11], which differs from the channel mask and reads back as all
    channels of both groups. *)
Example scenario_grouped :
  SpecHelper.vec2Mask (Stub.enable 8 [0%nat; 5%nat]) 2 = 3 /\
  SpecHelper.vec2Mask (Stub.enable 8 [0%nat; 5%nat]) 1 = 33 /\
  SpecHelper.mask2Vec 3 (Stub.enable 8 [0%nat; 5%nat]) 2 = repeat (Some true) 8.
Proof. repeat split. Qed.

(** ** Traces *)

Lemma calls_app (t u : list Event) : calls (t ++ u) = calls t ++ calls u.
Proof.
  induction t as [| [a arg raised | s m] t IH]; simpl; [reflexivity | |];
    rewrite IH; reflexivity.
Qed.

Lemma failures_app (t u : list Event) :
  failures (t ++ u) = failures t ++ failures u.
Proof.
  induction t as [| [a arg [e |] | s m] t IH]; simpl; try rewrite IH; reflexivity.
Qed.

Lemma error_records_app (t u : list Event) :
  error_records (t ++ u) = error_records t ++ error_records u.
Proof. unfold error_records. apply filter_app. Qed.

(** ** Running computations *)

Lemma run_eta {S A} (r : Run S A) (a : A) :
  outcome r = Returned a -> r = mkRun (Returned a) (final r) (emitted r).
Proof. destruct r as [o s t]. simpl. intros ->. reflexivity. Qed.

(** Sequencing, step by step: the events of the first computation, then
    those of the second, which starts in the state the first one left. *)
Lemma run_bind {S A B} (m : M S A) (f : A -> M S B)
      (s s1 s2 : S) (a : A) (o : Outcome B) (t1 t2 : list Event) :
  m s = mkRun (Returned a) s1 t1 ->
  f a s1 = mkRun o s2 t2 ->
  bind m f s = mkRun o s2 (t1 ++ t2).
Proof. intros Hm Hf. unfold bind. rewrite Hm. simpl. rewrite Hf. reflexivity. Qed.

(** A computation that leaves the process does so whatever follows it. *)
Lemma run_bind_exits {S A B} (m : M S A) (f : A -> M S B)
      (s s1 : S) (c : Z) (t1 : list Event) :
  m s = mkRun (Exited c) s1 t1 -> bind m f s = mkRun (Exited c) s1 t1.
Proof. intros Hm. unfold bind. rewrite Hm. reflexivity. Qed.

(** What follows a computation that does not return is never run. *)
Lemma bind_cut {S A B} (m : M S A) (f g : A -> M S B) (s : S) :
  (forall a, outcome (m s) <> Returned a) -> bind m f s = bind m g s.
Proof.
  intros Hm. unfold bind. destruct (outcome (m s)) eqn:E; try reflexivity.
  exfalso. apply (Hm a). reflexivity.
Qed.

Lemma bind_ext {S A B} (m : M S A) (f g : A -> M S B) (s : S) :
  (forall a s', f a s' = g a s') -> bind m f s = bind m g s.
Proof.
  intros Hfg. unfold bind. destruct (outcome (m s)); try reflexivity.
  rewrite Hfg. reflexivity.
Qed.

(** A sequence returns only if both parts return. *)
Lemma bind_returns_inv {S A B} (m : M S A) (f : A -> M S B) (s : S) (b : B) :
  outcome (bind m f s) = Returned b ->
  exists a, outcome (m s) = Returned a /\ outcome (f a (final (m s))) = Returned b.
Proof.
  unfold bind. destruct (outcome (m s)) eqn:E; simpl; try discriminate.
  intros Hf. exists a. split; [reflexivity | exact Hf].
Qed.

Lemma run_bind_undefined {S A B} (m : M S A) (f : A -> M S B)
      (s s1 : S) (t1 : list Event) :
  m s = mkRun Undefined s1 t1 -> bind m f s = mkRun Undefined s1 t1.
Proof. intros Hm. unfold bind. rewrite Hm. reflexivity. Qed.

Lemma run_when_log {S} (c : bool) (sev : severity) (m : Message) (s : S) :
  (if c then log sev m else ret tt) s
  = mkRun (Returned tt) s (if c then [Log sev m] else []).
Proof. destruct c; reflexivity. Qed.

(** ** The field programmer *)
Section FieldProgrammerFacts.
Context {D TM : Type} `{RegisterValue TM} `{Digitizer D TM}.
Context {T : Type} `{RegisterValue T}.
Variables (a_set a_get : Accessor).
Variable op_set : T -> D -> (Error + unit) * D.
Variable op_get : D -> (Error + T) * D.

(** A setter that returns: the value went to the device, the caller's copy
    is as before, nothing is logged. *)
Lemma programWrapper_write_ok (read : M D T) (value : T) (d d' : D) :
  op_set value d = (inr tt, d') ->
  programWrapper (setter a_set op_set) read value WRITING d
  = mkRun (Returned value) d' [Call a_set (Some (as_Z value)) None].
Proof. intros E. unfold_run. rewrite E. reflexivity. Qed.

(** A setter that raises: caught, reported in two records, value kept. *)
Lemma programWrapper_write_fails (read : M D T) (value : T) (d d' : D) (e : Error) :
  op_set value d = (inl e, d') ->
  programWrapper (setter a_set op_set) read value WRITING d
  = mkRun (Returned value) d'
          (Call a_set (Some (as_Z value)) (Some e)
             :: error_report (boardInfo d') WRITING e (as_Z value)).
Proof. intros E. unfold_run. rewrite E. reflexivity. Qed.

(** A getter that returns: its result replaces the value. *)
Lemma programWrapper_read_ok (write : T -> M D unit) (value v : T) (d d' : D) :
  op_get d = (inr v, d') ->
  programWrapper write (getter a_get op_get) value READING d
  = mkRun (Returned v) d' [Call a_get None None].
Proof. intros E. unfold_run. rewrite E. reflexivity. Qed.

(** A getter that raises: caught, reported in two records, value kept. *)
Lemma programWrapper_read_fails (write : T -> M D unit) (value : T) (d d' : D)
      (e : Error) (arg : Z) :
  op_get d = (inl e, d') ->
  programWrapper write (getter a_get op_get) value READING d
  = mkRun (Returned value) d'
          (Call a_get None (Some e) :: error_report (boardInfo d') READING e arg).
Proof. intros E. unfold_run. rewrite E. reflexivity. Qed.

(** The plain overload over a setter and a getter, in closed form. *)
Lemma programWrapper_unfold (value : T) (direction : comDirection) (d : D) :
  programWrapper (setter a_set op_set) (getter a_get op_get) value direction d
  = match direction with
    | WRITING =>
        match op_set value d with
        | (inr _, d') =>
            mkRun (Returned value) d' [Call a_set (Some (as_Z value)) None]
        | (inl e, d') =>
            mkRun (Returned value) d'
                  (Call a_set (Some (as_Z value)) (Some e)
                     :: error_report (boardInfo d') WRITING e (as_Z value))
        end
    | READING =>
        match op_get d with
        | (inr v, d') => mkRun (Returned v) d' [Call a_get None None]
        | (inl e, d') =>
            mkRun (Returned value) d'
                  (Call a_get None (Some e)
                     :: error_report (boardInfo d') READING e 0)
        end
    end.
Proof.
  destruct direction.
  - destruct (op_get d) as [[e | v] d'] eqn:E.
    + apply programWrapper_read_fails; assumption.
    + apply programWrapper_read_ok; assumption.
  - destruct (op_set value d) as [[e | []] d'] eqn:E.
    + apply programWrapper_write_fails; assumption.
    + apply programWrapper_write_ok; assumption.
Qed.

(** Whatever the accessors do, as long as they return or raise, the plain
    overload returns: nothing is thrown past it. *)
Lemma programWrapper_returns (value : T) (direction : comDirection) (d : D) :
  exists value',
    outcome (programWrapper (setter a_set op_set) (getter a_get op_get)
                            value direction d) = Returned value'.
Proof.
  rewrite programWrapper_unfold.
  destruct direction;
    [destruct (op_get d) as [[e | v] d'] | destruct (op_set value d) as [[e | u] d']];
    eexists; reflexivity.
Qed.

(** On a failure the plain overload leaves the caller's value alone, in
    both directions. *)
Lemma programWrapper_failure_keeps_value (value : T) (direction : comDirection)
      (d : D) :
  failures (emitted (programWrapper (setter a_set op_set) (getter a_get op_get)
                                    value direction d)) <> [] ->
  outcome (programWrapper (setter a_set op_set) (getter a_get op_get)
                          value direction d) = Returned value.
Proof.
  rewrite programWrapper_unfold.
  destruct direction;
    [destruct (op_get d) as [[e | v] d'] | destruct (op_set value d) as [[e | u] d']];
    simpl; intros Hf; try reflexivity; exfalso; apply Hf; reflexivity.
Qed.

(** The optional overload, on a value that is set, is the plain one. *)
Lemma programWrapper_optional_set (k v : T) (direction : comDirection) (d : D) :
  let r := programWrapper (setter a_set op_set) (getter a_get op_get) v direction d in
  forall v', outcome r = Returned v' ->
  programWrapper_optional k (setter a_set op_set) (getter a_get op_get)
                          (Some v) direction d
  = mkRun (Returned (Some v')) (final r) (emitted r).
Proof.
  intros r v' Hr. unfold programWrapper_optional, bind, ret. fold r.
  rewrite Hr. simpl. rewrite app_nil_r. reflexivity.
Qed.

(** The same for an optional that is set. *)
Lemma programWrapper_optional_set_failure_keeps_value
      (k v : T) (direction : comDirection) (d : D) :
  failures (emitted (programWrapper_optional k (setter a_set op_set)
                       (getter a_get op_get) (Some v) direction d)) <> [] ->
  outcome (programWrapper_optional k (setter a_set op_set) (getter a_get op_get)
                                   (Some v) direction d) = Returned (Some v).
Proof.
  destruct (programWrapper_returns v direction d) as [v' Hv'].
  rewrite (programWrapper_optional_set k v direction d v' Hv'). simpl.
  intros Hf. apply programWrapper_failure_keeps_value in Hf.
  rewrite Hf in Hv'. injection Hv' as <-. reflexivity.
Qed.

(** An unset optional read from a getter that raises comes back set, to
    whatever the local [k] held. *)
Lemma programWrapper_optional_unset_failure_sets
      (k : T) (d d' : D) (e : Error) :
  op_get d = (inl e, d') ->
  programWrapper_optional k (setter a_set op_set) (getter a_get op_get)
                          None READING d
  = mkRun (Returned (Some k)) d'
          (Call a_get None (Some e) :: error_report (boardInfo d') READING e 0).
Proof. intros E. unfold_run. rewrite E. reflexivity. Qed.

End FieldProgrammerFacts.

(** ** Shapes of traces *)

Lemma field_events_calls direction a t :
  field_events direction a t -> calls t = [a].
Proof. intros [arg | arg e board z]; destruct direction; reflexivity. Qed.

Lemma field_events_reports direction a t :
  field_events direction a t -> reports direction (failures t) (error_records t).
Proof.
  intros [arg | arg e board z]; destruct direction; simpl; try reflexivity;
    exists board, z, []; split; reflexivity.
Qed.

Lemma reports_app direction fs1 fs2 recs1 recs2 :
  reports direction fs1 recs1 -> reports direction fs2 recs2 ->
  reports direction (fs1 ++ fs2) (recs1 ++ recs2).
Proof.
  revert recs1. induction fs1 as [| [a e] fs1 IH]; simpl; intros recs1 H1 H2.
  - subst recs1. exact H2.
  - destruct H1 as (board & z & recs' & -> & Hrest).
    exists board, z, (recs' ++ recs2). split.
    + reflexivity.
    + apply IH; assumption.
Qed.

Lemma warning_no_failure sev m (t : list Event) :
  sev <> error ->
  failures (Log sev m :: t) = failures t /\
  error_records (Log sev m :: t) = error_records t /\
  calls (Log sev m :: t) = calls t.
Proof. intros Hs. destruct sev; try (exfalso; apply Hs; reflexivity); auto. Qed.

Section OptionalFacts.
Context {D TM : Type} `{RegisterValue TM} `{Digitizer D TM}.
Context {T : Type} `{RegisterValue T}.
Variables (a_set a_get : Accessor).
Variable op_set : T -> D -> (Error + unit) * D.
Variable op_get : D -> (Error + T) * D.

Lemma programWrapper_events (value : T) (direction : comDirection) (d : D) :
  field_events direction (accessor_of direction a_set a_get)
    (emitted (programWrapper (setter a_set op_set) (getter a_get op_get)
                             value direction d)).
Proof.
  rewrite programWrapper_unfold.
  destruct direction;
    [destruct (op_get d) as [[e | v] d'] | destruct (op_set value d) as [[e | u] d']];
    simpl; constructor.
Qed.

(** The optional overload always returns; either it did nothing (unset,
    writing) or its trace is that of one run of the plain overload. *)
Lemma programWrapper_optional_run
      (k : T) (value : option T) (direction : comDirection) (d : D) :
  exists value' d' t,
    programWrapper_optional k (setter a_set op_set) (getter a_get op_get)
                            value direction d
    = mkRun (Returned value') d' t /\
    ((value = None /\ direction = WRITING /\ value' = None /\ d' = d /\ t = [])
     \/ ((is_set value = true \/ direction = READING) /\ is_set value' = true /\
         field_events direction (accessor_of direction a_set a_get) t)).
Proof.
  destruct value as [v |].
  - destruct (programWrapper_returns a_set a_get op_set op_get v direction d)
      as [v' Hv'].
    eexists _, _, _. split.
    + apply programWrapper_optional_set. exact Hv'.
    + right. repeat split; [left; reflexivity |]. apply programWrapper_events.
  - destruct direction.
    + destruct (programWrapper_returns a_set a_get op_set op_get k READING d)
        as [k' Hk'].
      eexists _, _, _. split.
      * unfold programWrapper_optional.
        eapply run_bind; [apply run_eta; exact Hk' | reflexivity].
      * right. rewrite app_nil_r.
        repeat split; [right; reflexivity |]. apply programWrapper_events.
    + exists None, d, []. split; [reflexivity |]. left. repeat split.
Qed.

End OptionalFacts.

(** ** The mask wrapper and the orchestrator *)
Section EngineFacts.
Context {D TM : Type} `{RegisterValue TM} `{Digitizer D TM} `{MaskHelper}.

(** [programMaskWrapper] in closed form: possibly the warning, then the
    plain overload on the channel-enable pair, whatever pair was passed. *)
Lemma programMaskWrapper_run
      (write : uint32 -> M D unit) (read : M D uint32)
      (vec : ChannelVector) (name : string) (direction : comDirection) (d : D) :
  let mask0 := start_mask vec direction d in
  let pw := programWrapper setChannelEnableMask getChannelEnableMask
                           mask0 direction d in
  exists mask,
    outcome pw = Returned mask /\
    programMaskWrapper write read vec name direction d
    = mkRun (Returned (match direction with
                       | READING => mask2Vec mask vec (bi_groups (boardInfo (final pw)))
                       | WRITING => vec
                       end))
            (final pw)
            ((if negb (mask0 =? vec2Mask vec 1)
              then [Log warning (MsgMaskNotMapped name mask0)]
              else []) ++ emitted pw).
Proof.
  intros mask0 pw.
  destruct (programWrapper_returns SetChannelEnableMask GetChannelEnableMask
              hw_setChannelEnableMask hw_getChannelEnableMask mask0 direction d)
    as [mask Hmask].
  change (outcome pw = Returned mask) in Hmask.
  exists mask. split; [exact Hmask |].
  unfold programMaskWrapper. cbv zeta.
  destruct direction.
  - eapply eq_trans.
    + eapply run_bind; [reflexivity |].
      eapply run_bind; [apply run_when_log |].
      eapply run_bind; [apply run_eta; exact Hmask |].
      reflexivity.
    + simpl. rewrite !app_nil_r. reflexivity.
  - eapply eq_trans.
    + eapply run_bind; [reflexivity |].
      eapply run_bind; [apply run_when_log |].
      eapply run_bind; [apply run_eta; exact Hmask |].
      reflexivity.
    + simpl. rewrite !app_nil_r. reflexivity.
Qed.

(** The same, keeping only what the orchestrator needs. *)
Lemma programMaskWrapper_shape
      (write : uint32 -> M D unit) (read : M D uint32)
      (vec : ChannelVector) (name : string) (direction : comDirection) (d : D) :
  exists vec' d' t,
    programMaskWrapper write read vec name direction d
    = mkRun (Returned vec') d'
            ((if negb (start_mask vec direction d =? vec2Mask vec 1)
              then [Log warning (MsgMaskNotMapped name (start_mask vec direction d))]
              else []) ++ t) /\
    field_events direction
                 (accessor_of direction SetChannelEnableMask GetChannelEnableMask) t.
Proof.
  destruct (programMaskWrapper_run write read vec name direction d)
    as (mask & _ & Hrun).
  eexists _, _, _. split; [exact Hrun |].
  apply (programWrapper_events SetChannelEnableMask GetChannelEnableMask).
Qed.

(** [programSettings] returns, and its trace is: the events of the optional
    field, possibly the mask warning, the events of the enable mask. *)
Lemma programSettings_run (k : TM) (settings : registerSettings TM)
      (direction : comDirection) (d : D) :
  exists sw ch d' t1 w t2,
    programSettings k settings direction d
    = mkRun (Returned (mkRegisterSettings sw ch)) d' (t1 ++ w ++ t2) /\
    ((swTriggerMode settings = None /\ direction = WRITING /\ sw = None /\ t1 = [])
     \/ ((is_set (swTriggerMode settings) = true \/ direction = READING) /\
         is_set sw = true /\
         field_events direction
                      (accessor_of direction SetSWTriggerMode GetSWTriggerMode) t1)) /\
    (w = [] \/ exists mask, w = [Log warning (MsgMaskNotMapped "chEnable" mask)]) /\
    field_events direction
                 (accessor_of direction SetChannelEnableMask GetChannelEnableMask) t2.
Proof.
  destruct (programWrapper_optional_run SetSWTriggerMode GetSWTriggerMode
              hw_setSWTriggerMode hw_getSWTriggerMode
              k (swTriggerMode settings) direction d)
    as (sw & d1 & t1 & Hsw & Hshape).
  assert (Hmask : exists ch d' t2,
             (if bi_groups (boardInfo d1) =? 1
              then programMaskWrapper setChannelEnableMask getChannelEnableMask
                                      (chEnable settings) "chEnable" direction
              else programMaskWrapper setGroupEnableMask getGroupEnableMask
                                      (chEnable settings) "chEnable" direction) d1
             = mkRun (Returned ch) d'
                     ((if negb (start_mask (chEnable settings) direction d1
                                =? vec2Mask (chEnable settings) 1)
                       then [Log warning
                               (MsgMaskNotMapped "chEnable"
                                  (start_mask (chEnable settings) direction d1))]
                       else []) ++ t2) /\
             field_events direction
               (accessor_of direction SetChannelEnableMask GetChannelEnableMask) t2).
  { destruct (bi_groups (boardInfo d1) =? 1); apply programMaskWrapper_shape. }
  destruct Hmask as (ch & d' & t2 & Hch & Hshape2).
  eexists sw, ch, d', t1, _, t2. split; [| split; [| split; [| exact Hshape2]]].
  - unfold programSettings.
    eapply eq_trans.
    + eapply run_bind; [exact Hsw |].
      eapply run_bind; [reflexivity |].
      eapply run_bind; [exact Hch |].
      reflexivity.
    + simpl. rewrite app_nil_r. reflexivity.
  - destruct Hshape as [(Hnone & Hdir & Hsw' & _ & Ht1) | Hset];
      [left; repeat split; assumption | right; exact Hset].
  - destruct (negb _); [right; eexists; reflexivity | left; reflexivity].
Qed.

(** A pass goes through the fields in the declared order, and the enable
    mask always goes through the channel-enable pair. *)
Lemma programSettings_calls (k : TM) (settings : registerSettings TM)
      (direction : comDirection) (d : D) :
  calls (emitted (programSettings k settings direction d))
  = pass_calls direction (is_set (swTriggerMode settings)).
Proof.
  destruct (programSettings_run k settings direction d)
    as (sw & ch & d' & t1 & w & t2 & -> & Hsw & Hw & Hch).
  simpl. rewrite !calls_app.
  apply field_events_calls in Hch. rewrite Hch.
  assert (Hcw : calls w = []).
  { destruct Hw as [-> | [mask ->]]; reflexivity. }
  rewrite Hcw. simpl.
  destruct Hsw as [(Hnone & -> & _ & ->) | (Hset & _ & Hev)].
  - rewrite Hnone. reflexivity.
  - apply field_events_calls in Hev. rewrite Hev.
    destruct direction; [reflexivity |].
    destruct Hset as [-> | Hd]; [reflexivity | discriminate].
Qed.

(** Every error record of a pass belongs to the report of a failed call. *)
Lemma programSettings_reports (k : TM) (settings : registerSettings TM)
      (direction : comDirection) (d : D) :
  let t := emitted (programSettings k settings direction d) in
  reports direction (failures t) (error_records t).
Proof.
  destruct (programSettings_run k settings direction d)
    as (sw & ch & d' & t1 & w & t2 & -> & Hsw & Hw & Hch).
  simpl. rewrite !failures_app, !error_records_app.
  apply reports_app; [| apply reports_app].
  - destruct Hsw as [(_ & _ & _ & ->) | (_ & _ & Hev)];
      [reflexivity | apply field_events_reports with (1 := Hev)].
  - destruct Hw as [-> | [mask ->]]; reflexivity.
  - apply field_events_reports with (1 := Hch).
Qed.

End EngineFacts.

(** ** The optional field programmer (section 4.2) *)
Section OptionalLaws.
Context {D TM : Type} `{RegisterValue TM} `{Digitizer D TM} `{MaskHelper}.
Context {T : Type} `{RegisterValue T}.

(** C5.  An optional field that is unset is not touched by WRITING: the
    optional overload returns at once, with no accessor call (no event at
    all) and the device in the state it was in; and a whole WRITING pass over
    a record whose optional field is unset calls neither accessor of that
    field: its only call is the setter of the enable mask. *)
Theorem unset_optional_is_not_written :
  (forall (k : T) (write : T -> M D unit) (read : M D T) (d : D),
      programWrapper_optional k write read None WRITING d
      = mkRun (Returned None) d []) /\
  (forall (k : TM) (ch : ChannelVector) (d : D),
      calls (emitted (programSettings k (mkRegisterSettings None ch) WRITING d))
      = [SetChannelEnableMask]).
Proof.
  split.
  - reflexivity.
  - intros k ch d. rewrite programSettings_calls. reflexivity.
Qed.

(** C8.  WRITING leaves an optional field as it is: the call returns with
    the very value it was given, so a set field stays set and an unset one
    stays unset.  In either direction the call returns, and the is-set
    status of the result differs from that of the argument only when the
    direction is READING. *)
Theorem writing_keeps_is_set
        (a_set a_get : Accessor)
        (op_set : T -> D -> (Error + unit) * D) (op_get : D -> (Error + T) * D)
        (k : T) (value : option T) (d : D) :
  outcome (programWrapper_optional k (setter a_set op_set) (getter a_get op_get)
                                   value WRITING d) = Returned value /\
  (forall direction, exists value',
      outcome (programWrapper_optional k (setter a_set op_set) (getter a_get op_get)
                                       value direction d) = Returned value' /\
      (is_set value' = is_set value \/ direction = READING)).
Proof.
  assert (Hw : outcome (programWrapper_optional k (setter a_set op_set)
                          (getter a_get op_get) value WRITING d) = Returned value).
  { destruct value as [v |]; [| reflexivity].
    assert (Hv : outcome (programWrapper (setter a_set op_set) (getter a_get op_get)
                                         v WRITING d) = Returned v).
    { rewrite programWrapper_unfold.
      destruct (op_set v d) as [[e | u] d']; reflexivity. }
    rewrite (programWrapper_optional_set a_set a_get op_set op_get k v WRITING d v Hv).
    reflexivity. }
  split; [exact Hw |].
  intros [|].
  - destruct (programWrapper_optional_run a_set a_get op_set op_get k value READING d)
      as (value' & d' & t & Hrun & _).
    exists value'. rewrite Hrun. split; [reflexivity | right; reflexivity].
  - exists value. split; [exact Hw | left; reflexivity].
Qed.

End OptionalLaws.

(** C3, at the input where the code departs from it.  The optional field is
    unset, the direction is READING and the getter raises (the stub fails its
    first call).  The failure is caught and reported, but line 77 then stores
    the local [k], which was never assigned, into the optional: the caller's
    field is set afterwards, holding what [k] happened to hold (7 here). *)
Theorem failed_read_sets_unset_optional :
  let r := programWrapper_optional 7 setSWTriggerMode getSWTriggerMode
                                   None READING (Stub.fresh 1 (Some 0%nat)) in
  failures (emitted r)
  = [(GetSWTriggerMode, mkError "CommError" "GetSWTriggerMode")] /\
  outcome r = Returned (Some 7) /\
  is_set (Some 7) <> is_set (@None Z).
Proof. repeat split. discriminate. Qed.

(** The enable vector has the same fate: when the mask getter raises, the
    mask is still the initial 0 and line 93 expands it over the caller's
    vector, here one that had channels 0 and 5 enabled. *)
Lemma failed_read_overwrites_enable_vector :
  let vec := Stub.enable 8 [0%nat; 5%nat] in
  let r := programMaskWrapper setChannelEnableMask getChannelEnableMask
                              vec "chEnable" READING (Stub.fresh 1 (Some 0%nat)) in
  failures (emitted r)
  = [(GetChannelEnableMask, mkError "CommError" "GetChannelEnableMask")] /\
  outcome r = Returned (repeat (Some false) 8) /\
  repeat (Some false) 8 <> vec.
Proof. repeat split. discriminate. Qed.

(** ** The mask wrapper (section 4.3) *)
Section MaskLaws.
Context {D TM : Type} `{RegisterValue TM} `{Digitizer D TM} `{MaskHelper}.

(** The accessor pair handed to [programMaskWrapper] makes no difference. *)
Lemma programMaskWrapper_ignores_pair
      (write write' : uint32 -> M D unit) (read read' : M D uint32)
      (vec : ChannelVector) (name : string) (direction : comDirection) (d : D) :
  programMaskWrapper write read vec name direction d
  = programMaskWrapper write' read' vec name direction d.
Proof. reflexivity. Qed.

(** Whatever the group count, neither group-enable accessor is called in a
    pass. *)
Lemma group_enable_pair_is_never_called
      (k : TM) (settings : registerSettings TM) (direction : comDirection) (d : D) :
  let t := calls (emitted (programSettings k settings direction d)) in
  ~ In SetGroupEnableMask t /\ ~ In GetGroupEnableMask t.
Proof.
  simpl. rewrite programSettings_calls.
  destruct direction, (is_set (swTriggerMode settings)); simpl;
    split; intros Hin; repeat (destruct Hin as [Hin | Hin]; [discriminate |]);
    exact Hin.
Qed.

(** The warnings of one run of [programMaskWrapper]: one, exactly when the
    mask held at line 87 differs from [vec2Mask(vec, 1)]. *)
Lemma mask_warning_condition
      (write : uint32 -> M D unit) (read : M D uint32)
      (vec : ChannelVector) (name : string) (direction : comDirection) (d : D) :
  filter is_warning_record
         (emitted (programMaskWrapper write read vec name direction d))
  = if negb (start_mask vec direction d =? vec2Mask vec 1)
    then [Log warning (MsgMaskNotMapped name (start_mask vec direction d))]
    else [].
Proof.
  destruct (programMaskWrapper_shape write read vec name direction d)
    as (vec' & d' & t & -> & Hev).
  simpl. rewrite filter_app.
  assert (Ht : filter is_warning_record t = []).
  { destruct Hev as [arg | arg e board z]; reflexivity. }
  rewrite Ht, app_nil_r.
  destruct (negb _); reflexivity.
Qed.

(** When writing, the warning is the comparison of the two derived masks,
    and the mask that goes to the setter is the one derived at the device's
    group count. *)
Lemma mask_warning_when_writing
      (write : uint32 -> M D unit) (read : M D uint32)
      (vec : ChannelVector) (name : string) (d : D) :
  let g := bi_groups (boardInfo d) in
  let t := emitted (programMaskWrapper write read vec name WRITING d) in
  (In (Log warning (MsgMaskNotMapped name (vec2Mask vec g))) t
   <-> vec2Mask vec g <> vec2Mask vec 1) /\
  exists raised, In (Call SetChannelEnableMask (Some (vec2Mask vec g)) raised) t.
Proof.
  intros g t. split.
  - assert (Hin : forall ev, In ev (filter is_warning_record t) <->
                             In ev t /\ is_warning_record ev = true)
      by (intros ev; apply filter_In).
    specialize (Hin (Log warning (MsgMaskNotMapped name (vec2Mask vec g)))).
    unfold t in Hin at 1. rewrite mask_warning_condition in Hin.
    change (start_mask vec WRITING d) with (vec2Mask vec g) in Hin.
    destruct (Z.eqb_spec (vec2Mask vec g) (vec2Mask vec 1)) as [Heq | Hne];
      simpl in Hin.
    + split; [| intros Hne; exfalso; apply Hne; exact Heq].
      intros Hw. exfalso. apply Hin. split; [exact Hw | reflexivity].
    + split; [intros _; exact Hne |].
      intros _. apply Hin. left. reflexivity.
  - destruct (programMaskWrapper_run write read vec name WRITING d)
      as (mask & _ & Hrun).
    pose proof (programWrapper_unfold SetChannelEnableMask GetChannelEnableMask
                  hw_setChannelEnableMask hw_getChannelEnableMask
                  (vec2Mask vec g) WRITING d) as Hpw.
    unfold t. rewrite Hrun. cbn [emitted].
    change (emitted (programWrapper setChannelEnableMask getChannelEnableMask
                                    (start_mask vec WRITING d) WRITING d))
      with (emitted (programWrapper
                       (setter SetChannelEnableMask hw_setChannelEnableMask)
                       (getter GetChannelEnableMask hw_getChannelEnableMask)
                       (vec2Mask vec g) WRITING d)).
    rewrite Hpw.
    destruct (hw_setChannelEnableMask (vec2Mask vec g) d) as [[e | u] d'];
      eexists; apply in_or_app; right; left; reflexivity.
Qed.

(** When reading, the vector is compared with the initial 0 instead. *)
Lemma mask_warning_when_reading
      (write : uint32 -> M D unit) (read : M D uint32)
      (vec : ChannelVector) (name : string) (d : D) :
  vec2Mask vec 1 <> 0 ->
  In (Log warning (MsgMaskNotMapped name 0))
     (emitted (programMaskWrapper write read vec name READING d)).
Proof.
  intros Hne.
  assert (Hin : In (Log warning (MsgMaskNotMapped name 0))
                   (filter is_warning_record
                      (emitted (programMaskWrapper write read vec name READING d)))).
  { rewrite mask_warning_condition.
    change (start_mask vec READING d) with 0.
    destruct (Z.eqb_spec 0 (vec2Mask vec 1)) as [Heq | _]; simpl.
    - exfalso. apply Hne. symmetry. exact Heq.
    - left. reflexivity. }
  apply filter_In in Hin. exact (proj1 Hin).
Qed.

End MaskLaws.

(** C1, at the input where the code departs from it.  The device has 8
    channels in 2 groups.  [programSettings] takes the branch that passes the
    group-enable pair, but [programMaskWrapper] calls the channel-enable pair
    it names itself: in both directions the second call of the pass is on
    the channel-enable accessor, the group mask 3 lands in the channel-enable
    register and the group-enable register is never touched. *)
Theorem grouped_device_is_driven_by_channel_pair :
  let d := Stub.fresh 2 None in
  let settings := mkRegisterSettings (Some 1) (Stub.enable 8 [0%nat; 5%nat]) in
  let w := programSettings 7 settings WRITING d in
  let r := programSettings 7 settings READING d in
  (1 <? bi_groups (boardInfo d)) = true /\
  calls (emitted w) = [SetSWTriggerMode; SetChannelEnableMask] /\
  calls (emitted r) = [GetSWTriggerMode; GetChannelEnableMask] /\
  Stub.reg_channelEnable (final w) = 3 /\
  Stub.reg_groupEnable (final w) = 0.
Proof. repeat split. Qed.

(** C2, at the input where the code departs from it.  The device has 8
    channels and no grouping (group count 1), and channel 0 is enabled: the
    mask at the device's group count and the mask at channel granularity are
    the same mask, 1.  In a READING run the test of line 87 nevertheless
    compares the initial 0 with the channel mask, and the warning is logged
    (announcing a group mask of 0).  The same happens on a device with 2
    groups, where both masks are 1 as well. *)
Theorem reading_warns_on_consistent_vector :
  let vec := Stub.enable 8 [0%nat] in
  let ungrouped := Stub.fresh 1 None in
  let grouped := Stub.fresh 2 None in
  vec2Mask vec (bi_groups (boardInfo ungrouped)) = vec2Mask vec 1 /\
  emitted (programMaskWrapper setChannelEnableMask getChannelEnableMask
                              vec "chEnable" READING ungrouped)
  = [Log warning (MsgMaskNotMapped "chEnable" 0);
     Call GetChannelEnableMask None None] /\
  vec2Mask vec (bi_groups (boardInfo grouped)) = vec2Mask vec 1 /\
  emitted (programMaskWrapper setGroupEnableMask getGroupEnableMask
                              vec "chEnable" READING grouped)
  = [Log warning (MsgMaskNotMapped "chEnable" 0);
     Call GetChannelEnableMask None None].
Proof. repeat split. Qed.

(** C4 as stated does not hold: in a WRITING pass whose first call, the
    setter of the trigger mode, is the single call that fails, the log holds
    two error records, not one. *)
Lemma one_failure_two_error_records :
  let r := programSettings 7 (mkRegisterSettings (Some 1) (Stub.enable 8 [0%nat]))
                           WRITING (Stub.fresh 1 (Some 0%nat)) in
  failures (emitted r)
  = [(SetSWTriggerMode, mkError "CommError" "SetSWTriggerMode")] /\
  error_records (emitted r)
  = [Log error (MsgCaughtCommunicating "V17xx" 42);
     Log error (MsgCallingWith "SetSWTriggerMode" "1" "CommError")] /\
  List.length (error_records (emitted r)) <> 1%nat.
Proof. repeat split. discriminate. Qed.

(** ** The configuration cycle *)
Section CycleLaws.
Context {D TM : Type} `{RegisterValue TM} `{Digitizer D TM} `{MaskHelper}
        `{ConfigSource TM}.
Variable open_link : Z -> Z -> Z -> Z -> OpenResult D.
Variable k : TM.

Lemma calls_unknown_warnings (section : string) (node : Node) :
  calls (unknown_warnings section node) = [].
Proof. induction node as [| kv rest IH]; [reflexivity | exact IH]. Qed.

Lemma warn_unknown_run (section : string) (node : Node) (d : D) :
  warn_unknown section node d
  = mkRun (Returned tt) d (unknown_warnings section node).
Proof.
  induction node as [| [key value] rest IH]; simpl; [reflexivity |].
  eapply eq_trans.
  - eapply run_bind; [reflexivity | exact IH].
  - reflexivity.
Qed.

(** The work done on a handle always returns, and its trace is: the status
    printout, the WRITING pass, the warnings for the keys left over, the
    READING pass on the device and the record the WRITING pass left. *)
Lemma configure_run (digName : string) (node : Node) (d : D) :
  let parsed := parse_register digName (bi_channels (boardInfo d)) node in
  let w := programSettings k (fst parsed) WRITING d in
  exists sW sR,
    outcome w = Returned sW /\
    outcome (programSettings k sW READING (final w)) = Returned sR /\
    configure k digName node d
    = mkRun (Returned sR)
            (final (programSettings k sW READING (final w)))
            (Log debug (MsgConnected digName (boardInfo d))
               :: emitted w ++ unknown_warnings digName (snd parsed)
               ++ emitted (programSettings k sW READING (final w))).
Proof.
  cbv zeta.
  destruct (parse_register digName (bi_channels (boardInfo d)) node)
    as [regsettings node'] eqn:Hparse.
  cbn [fst snd].
  destruct (programSettings_run k regsettings WRITING d)
    as (sw & ch & dW & t1 & wn & t2 & HW & _).
  destruct (programSettings_run k (mkRegisterSettings sw ch) READING dW)
    as (sw' & ch' & dR & t1' & wn' & t2' & HR & _).
  exists (mkRegisterSettings sw ch), (mkRegisterSettings sw' ch').
  rewrite HW. cbn [outcome final emitted]. rewrite HR. cbn [outcome final emitted].
  split; [reflexivity | split; [reflexivity |]].
  unfold configure.
  eapply eq_trans.
  - eapply run_bind; [reflexivity |].
    eapply run_bind; [reflexivity |].
    eapply run_bind; [reflexivity |].
    cbv beta. rewrite Hparse.
    eapply run_bind; [exact HW |].
    eapply run_bind; [apply warn_unknown_run |].
    eapply run_bind; [exact HR |].
    reflexivity.
  - simpl. rewrite !app_nil_r. reflexivity.
Qed.

End CycleLaws.

(** ** Connecting (section 7) *)
Section ConnectionLaws.
Context {D TM : Type} `{RegisterValue TM} `{Digitizer D TM} `{MaskHelper}
        `{ConfigSource TM}.
Variable open_link : Z -> Z -> Z -> Z -> OpenResult D.
Variable k : TM.

Lemma connect_run (ls : connectionSettings) (s : unit) :
  connect open_link ls s
  = match opened open_link ls with
    | OpenThrows e =>
        mkRun (Exited EXIT_FAILURE) s
              [ Log error (MsgCaughtEstablishing (getName ls) (what e));
                Log error MsgCheckConnection ]
    | OpenReturns p => mkRun (Returned p) s []
    end.
Proof.
  unfold connect, try_catch, open, opened.
  destruct (open_link _ _ _ _); reflexivity.
Qed.

Lemma section_body_refused (section : string * Node) (s : unit) (e : Error) :
  opened open_link (link_of section) = OpenThrows e ->
  section_body open_link k section s
  = mkRun (Exited EXIT_FAILURE) s (refusal (fst section) (link_of section) e).
Proof.
  intros Hopen. unfold section_body, link_of in *.
  destruct (parse_connection (fst section) (snd section)) as [ls node].
  cbn [fst] in Hopen.
  change (refusal (fst section) (fst (ls, node)) e)
    with ([Log info (MsgEstablishing (fst section) (linkType ls) (linkNum ls)
                       (conetNode ls) (std_to_string (vmeBaseAddress ls)))]
            ++ [Log error (MsgCaughtEstablishing (getName ls) (what e));
                Log error MsgCheckConnection]).
  eapply run_bind; [reflexivity |].
  apply run_bind_exits. rewrite connect_run, Hopen. reflexivity.
Qed.

(** Once a section is refused, the sections after it play no part. *)
Lemma loop_stops_at_refusal (pre rest : PTree) (section : string * Node)
      (e : Error) :
  skipped (fst section) = false ->
  opened open_link (link_of section) = OpenThrows e ->
  forall vl vr s,
    sections_loop open_link k (pre ++ section :: rest) vl vr s
    = sections_loop open_link k (pre ++ [section]) vl vr s /\
    forall x, outcome (sections_loop open_link k (pre ++ section :: rest) vl vr s)
              <> Returned x.
Proof.
  intros Hskip Hopen.
  induction pre as [| first pre IH]; intros vl vr s.
  - cbn [app sections_loop]. rewrite Hskip.
    assert (Hbody : forall a, outcome (section_body open_link k section s)
                              <> Returned a).
    { intros a. rewrite (section_body_refused section s e Hopen). discriminate. }
    split.
    + apply bind_cut. exact Hbody.
    + intros x Hret. apply bind_returns_inv in Hret.
      destruct Hret as (a & Ha & _). exact (Hbody a Ha).
  - cbn [app sections_loop]. destruct (skipped (fst first)).
    + apply IH.
    + split.
      * apply bind_ext. intros a s'. apply IH.
      * intros x Hret. apply bind_returns_inv in Hret.
        destruct Hret as (a & _ & Hrest).
        exact (proj2 (IH _ _ _) x Hrest).
Qed.

(** C9.  A section whose link [open] refuses with a [caen::Error]: the
    failure and the advice to check the connection are logged as errors and
    the process exits with [EXIT_FAILURE], which is not 0, without a single
    accessor call.  From that section on the loop does nothing else,
    whatever sections follow; with sections before it, the run is the run
    over those sections and the refused one alone, and [read_ini_file] does
    not return. *)
Theorem connection_failure_exits
        (pre rest : PTree) (section : string * Node) (e : Error)
        (vl : list connectionSettings) (vr : list (registerSettings TM))
        (s : unit) :
  skipped (fst section) = false ->
  opened open_link (link_of section) = OpenThrows e ->
  sections_loop open_link k (section :: rest) vl vr s
  = mkRun (Exited EXIT_FAILURE) s (refusal (fst section) (link_of section) e) /\
  EXIT_FAILURE <> 0 /\
  calls (refusal (fst section) (link_of section) e) = [] /\
  sections_loop open_link k (pre ++ section :: rest) vl vr s
  = sections_loop open_link k (pre ++ [section]) vl vr s /\
  forall x, outcome (read_ini_file open_link k (pre ++ section :: rest) s)
            <> Returned x.
Proof.
  intros Hskip Hopen. repeat split.
  - cbn [sections_loop]. rewrite Hskip.
    apply run_bind_exits. apply section_body_refused. exact Hopen.
  - discriminate.
  - apply (loop_stops_at_refusal pre rest section e Hskip Hopen).
  - intros x Hret. unfold read_ini_file in Hret.
    apply bind_returns_inv in Hret. destruct Hret as (u & _ & Hloop).
    exact (proj2 (loop_stops_at_refusal pre rest section e Hskip Hopen _ _ _)
                 x Hloop).
Qed.

End ConnectionLaws.

Lemma connection_failure_exits_witness :
  let pre := [("daq", [("rate", "10")]);
              ("dig0", [("linkNum", "0"); ("swTriggerMode", "1"); ("colour", "red")])] in
  let section := ("dig1", [("linkNum", "1")]) in
  let rest := [("dig2", [("linkNum", "0")])] in
  let e := mkError "CommError" "OpenDigitizer" in
  skipped (fst section) = false /\
  opened Stub.lab (link_of section) = OpenThrows e /\
  (sections_loop Stub.lab 7 (section :: rest) [] [] tt
   = mkRun (Exited EXIT_FAILURE) tt (refusal (fst section) (link_of section) e) /\
   EXIT_FAILURE <> 0 /\
   calls (refusal (fst section) (link_of section) e) = [] /\
   sections_loop Stub.lab 7 (pre ++ section :: rest) [] [] tt
   = sections_loop Stub.lab 7 (pre ++ [section]) [] [] tt /\
   forall x, outcome (read_ini_file Stub.lab 7 (pre ++ section :: rest) tt)
             <> Returned x).
Proof.
  split; [reflexivity | split; [reflexivity |]].
  apply (connection_failure_exits Stub.lab 7); reflexivity.
Defined.

Section HandleLaws.
Context {D TM : Type} `{RegisterValue TM} `{Digitizer D TM} `{MaskHelper}
        `{ConfigSource TM}.
Variable k : TM.

(** With a handle that points to a device, the rest of the loop body
    returns. *)
Lemma with_handle_configure_returns (digName : string) (node : Node)
      (d : D) (s : unit) :
  exists regsettings t,
    with_handle (Some d) (configure k digName node) s
    = mkRun (Returned regsettings) s t.
Proof.
  destruct (configure_run k digName node d) as (sW & sR & _ & _ & Hrun).
  exists sR. eexists. unfold with_handle. rewrite Hrun. reflexivity.
Qed.

(** With the null pointer it is undefined at the first dereference. *)
Lemma with_handle_null_undefined {A} (m : M D A) (s : unit) :
  with_handle None m s = mkRun Undefined s [].
Proof. reflexivity. Qed.

(** C10.  Provided [open] never returns the null pointer without throwing:
    a connection attempt that lets execution proceed yields a handle that
    points to a device, and the loop body never dereferences a null handle
    (its outcome is never the undefined one).  The exit of the null check is
    taken only when [open] threw.  The proviso is needed: for any [open]
    that returns null on a section's link without throwing, execution does
    proceed past the connection attempt with a null handle, and the loop
    body is undefined. *)
Theorem handle_is_valid_past_connect
        (open_link : Z -> Z -> Z -> Z -> OpenResult D) :
  (forall lt ln cn vme, open_link lt ln cn vme <> OpenReturns None) ->
  (forall ls s p, outcome (connect open_link ls s) = Returned p ->
                  exists d, p = Some d) /\
  (forall section s, outcome (section_body open_link k section s) <> Undefined) /\
  (forall ls s c, outcome (connect open_link ls s) = Exited c ->
                  exists e, opened open_link ls = OpenThrows e) /\
  (forall (open_null : Z -> Z -> Z -> Z -> OpenResult D) section s,
      opened open_null (link_of section) = OpenReturns None ->
      outcome (connect open_null (link_of section) s) = Returned None /\
      outcome (section_body open_null k section s) = Undefined).
Proof.
  intros Hopen. split; [| split; [| split]].
  - intros ls s p. rewrite connect_run.
    destruct (opened open_link ls) as [e | [d |]] eqn:E; simpl.
    + discriminate.
    + intros [= <-]. exists d. reflexivity.
    + exfalso. exact (Hopen _ _ _ _ E).
  - intros section s. unfold section_body.
    destruct (parse_connection (fst section) (snd section)) as [ls node].
    destruct (opened open_link ls) as [e | [d |]] eqn:E.
    + erewrite run_bind; [| reflexivity |].
      2:{ apply run_bind_exits. rewrite connect_run, E. reflexivity. }
      discriminate.
    + destruct (with_handle_configure_returns (fst section) node d s)
        as (regsettings & t & Hrun).
      erewrite run_bind; [| reflexivity |].
      2:{ eapply run_bind; [rewrite connect_run, E; reflexivity |].
          eapply run_bind; [exact Hrun | reflexivity]. }
      discriminate.
    + exfalso. exact (Hopen _ _ _ _ E).
  - intros ls s c. rewrite connect_run.
    destruct (opened open_link ls) as [e | p]; simpl; [| discriminate].
    intros _. exists e. reflexivity.
  - intros open_null section s Hnull. split.
    + rewrite connect_run, Hnull. reflexivity.
    + unfold section_body. unfold link_of in Hnull.
      destruct (parse_connection (fst section) (snd section)) as [ls node].
      cbn [fst] in Hnull.
      erewrite run_bind; [| reflexivity |].
      2:{ eapply run_bind; [rewrite connect_run, Hnull; reflexivity |].
          apply run_bind_undefined. apply with_handle_null_undefined. }
      reflexivity.
Qed.

End HandleLaws.

Lemma handle_is_valid_past_connect_witness :
  (forall lt ln cn vme, Stub.safe_lab lt ln cn vme <> OpenReturns None) /\
  ((forall ls s p, outcome (connect Stub.safe_lab ls s) = Returned p ->
                   exists d, p = Some d) /\
   (forall section s, outcome (section_body Stub.safe_lab 7 section s) <> Undefined) /\
   (forall ls s c, outcome (connect Stub.safe_lab ls s) = Exited c ->
                   exists e, opened Stub.safe_lab ls = OpenThrows e) /\
   (forall (open_null : Z -> Z -> Z -> Z -> OpenResult Stub.Device) section s,
       opened open_null (link_of section) = OpenReturns None ->
       outcome (connect open_null (link_of section) s) = Returned None /\
       outcome (section_body open_null 7 section s) = Undefined)).
Proof.
  assert (Hsafe : forall lt ln cn vme,
             Stub.safe_lab lt ln cn vme <> OpenReturns None).
  { intros lt ln cn vme. unfold Stub.safe_lab.
    destruct (ln =? 1); discriminate. }
  split; [exact Hsafe |].
  apply (handle_is_valid_past_connect 7 Stub.safe_lab Hsafe).
Defined.

(** On the stub host, link 2 hands back a null pointer without throwing:
    the run reaches the status printout with it. *)
Lemma null_handle_is_dereferenced :
  read_ini_file Stub.lab 7 [("dig2", [("linkNum", "2")])] tt
  = mkRun Undefined tt
          [Log info (MsgFound 1); Log info (MsgEstablishing "dig2" 0 2 0 "0")].
Proof. reflexivity. Qed.

(** A run over the whole stub file: the first board is written, warned
    about and read back, the second is unplugged and ends the process, the
    third is never reached. *)
Lemma stub_file_run :
  let r := read_ini_file Stub.lab 7 Stub.ini tt in
  outcome r = Exited EXIT_FAILURE /\
  calls (emitted r)
  = [SetSWTriggerMode; SetChannelEnableMask; GetSWTriggerMode; GetChannelEnableMask] /\
  filter is_warning_record (emitted r)
  = [Log warning (MsgUnknownSetting "dig0" "colour" "red")].
Proof. repeat split. Qed.

(** * Further properties of the engine *)

Lemma call_events_app (t u : list Event) :
  call_events (t ++ u) = call_events t ++ call_events u.
Proof. apply filter_app. Qed.

Lemma log_records_app (t u : list Event) :
  log_records (t ++ u) = log_records t ++ log_records u.
Proof. apply filter_app. Qed.

Lemma run_eta_any {S A} (r : Run S A) :
  r = mkRun (outcome r) (final r) (emitted r).
Proof. destruct r; reflexivity. Qed.

(** ** More on [programWrapper] *)
Section FieldProgrammerMore.
Context {D TM : Type} `{RegisterValue TM} `{Digitizer D TM}.
Context {T : Type} `{RegisterValue T}.
Variables (a_set a_get : Accessor).
Variable op_set : T -> D -> (Error + unit) * D.
Variable op_get : D -> (Error + T) * D.

Lemma programWrapper_call_events
      (value : T) (direction : comDirection) (d : D) :
  exists raised,
    call_events (emitted (programWrapper (setter a_set op_set) (getter a_get op_get)
                                         value direction d))
    = [Call (accessor_of direction a_set a_get)
            (match direction with
             | WRITING => Some (as_Z value)
             | READING => None
             end)
            raised].
Proof.
  rewrite programWrapper_unfold.
  destruct direction;
    [destruct (op_get d) as [[e | v] d'] | destruct (op_set value d) as [[e | u] d']];
    eexists; reflexivity.
Qed.

(** A getter that returns [v'] fills the optional with [v'], set or not. *)
Lemma programWrapper_optional_read_ok
      (k : T) (value : option T) (v' : T) (d d' : D) :
  op_get d = (inr v', d') ->
  programWrapper_optional k (setter a_set op_set) (getter a_get op_get)
                          value READING d
  = mkRun (Returned (Some v')) d' [Call a_get None None].
Proof.
  intros Hget. unfold programWrapper_optional.
  destruct value as [v |].
  - eapply eq_trans.
    + eapply run_bind; [| reflexivity].
      apply programWrapper_read_ok. exact Hget.
    + reflexivity.
  - eapply eq_trans.
    + eapply run_bind; [| reflexivity].
      apply programWrapper_read_ok. exact Hget.
    + reflexivity.
Qed.

(** WRITING gives the optional back as it was. *)
Lemma programWrapper_optional_writing
      (k : T) (value : option T) (d : D) :
  exists d' t,
    programWrapper_optional k (setter a_set op_set) (getter a_get op_get)
                            value WRITING d
    = mkRun (Returned value) d' t.
Proof.
  destruct value as [v |].
  - assert (Hv : outcome (programWrapper (setter a_set op_set) (getter a_get op_get)
                                         v WRITING d) = Returned v).
    { rewrite programWrapper_unfold.
      destruct (op_set v d) as [[e | u] d']; reflexivity. }
    eexists _, _.
    apply (programWrapper_optional_set a_set a_get op_set op_get k v WRITING d v Hv).
  - exists d, []. reflexivity.
Qed.

(** X1.  The direction selects one accessor of the pair and the plain
    overload calls it exactly once: when WRITING the setter, with the
    caller's value as argument, when READING the getter; the other accessor
    of the pair is not called. *)
Theorem programWrapper_calls_selected_accessor_once
        (value : T) (direction : comDirection) (d : D) :
  exists raised,
    call_events (emitted (programWrapper (setter a_set op_set) (getter a_get op_get)
                                         value direction d))
    = [Call (accessor_of direction a_set a_get)
            (match direction with
             | WRITING => Some (as_Z value)
             | READING => None
             end)
            raised].
Proof. apply programWrapper_call_events. Qed.

(** X2.  The plain overload always returns (no [caen::Error] leaves it),
    in the device state the accessor left, and the content of [value]
    afterwards is the getter's result when the direction is READING and the
    getter returned, the content before the call in every other case. *)
Theorem programWrapper_value_after
        (value : T) (direction : comDirection) (d : D) :
  let r := programWrapper (setter a_set op_set) (getter a_get op_get)
                          value direction d in
  outcome r = Returned (match direction, op_get d with
                        | READING, (inr v, _) => v
                        | _, _ => value
                        end) /\
  final r = match direction with
            | WRITING => snd (op_set value d)
            | READING => snd (op_get d)
            end.
Proof.
  cbv zeta. rewrite programWrapper_unfold.
  destruct direction;
    [destruct (op_get d) as [[e | v] d'] | destruct (op_set value d) as [[e | u] d']];
    split; reflexivity.
Qed.

(** X3.  The plain overload writes to the log only when the accessor
    raised.  Then it writes the two error records of one report and nothing
    else: the report names the model and serial number the device gives
    after the failed call, the [where()] and [what()] of the error that was
    caught and, when WRITING, the decimal rendering of the value that was
    being written. *)
Theorem programWrapper_logs_only_failures
        (value : T) (direction : comDirection) (d : D) :
  let r := programWrapper (setter a_set op_set) (getter a_get op_get)
                          value direction d in
  log_records (emitted r)
  = match failures (emitted r) with
    | [] => []
    | (_, e) :: _ => error_report (boardInfo (final r)) direction e (as_Z value)
    end.
Proof.
  cbv zeta. rewrite programWrapper_unfold.
  destruct direction;
    [destruct (op_get d) as [[e | v] d'] | destruct (op_set value d) as [[e | u] d']];
    reflexivity.
Qed.

(** X4.  READING an optional that is already set overwrites it: when the
    getter returns [v'], the field holds [v'] afterwards, whatever it held
    before, and nothing is logged. *)
Theorem set_optional_is_overwritten_by_read
        (k v v' : T) (d d' : D) :
  op_get d = (inr v', d') ->
  programWrapper_optional k (setter a_set op_set) (getter a_get op_get)
                          (Some v) READING d
  = mkRun (Returned (Some v')) d' [Call a_get None None].
Proof. apply programWrapper_optional_read_ok. Qed.

(** X5.  The uninitialised local [k] of the optional overload is looked at
    in one situation only, an unset optional read from a getter that raises.
    When the optional is set, or the direction is WRITING, or the getter
    returns, the run is the same whatever [k] holds. *)
Theorem uninitialised_local_is_not_observed
        (value : option T) (direction : comDirection) (d : D) :
  (is_set value = true \/ direction = WRITING \/
   exists v d', op_get d = (inr v, d')) ->
  forall k k' : T,
    programWrapper_optional k (setter a_set op_set) (getter a_get op_get)
                            value direction d
    = programWrapper_optional k' (setter a_set op_set) (getter a_get op_get)
                              value direction d.
Proof.
  intros Hcase k k'.
  destruct value as [v |]; [reflexivity |].
  destruct direction; [| reflexivity].
  destruct Hcase as [Hset | [Hdir | (v & d' & Hget)]];
    [discriminate | discriminate |].
  unfold programWrapper_optional.
  transitivity (mkRun (Returned (Some v)) d' ([Call a_get None None] ++ [])).
  - eapply run_bind; [apply programWrapper_read_ok; exact Hget | reflexivity].
  - symmetry.
    eapply run_bind; [apply programWrapper_read_ok; exact Hget | reflexivity].
Qed.

End FieldProgrammerMore.

Lemma set_optional_is_overwritten_by_read_witness :
  let d := Stub.mkDevice (Stub.board8 1) 0 None 3 0 0 in
  hw_getSWTriggerMode d = (inr 3, Stub.count d) /\
  programWrapper_optional 7 setSWTriggerMode getSWTriggerMode (Some 1) READING d
  = mkRun (Returned (Some 3)) (Stub.count d) [Call GetSWTriggerMode None None].
Proof.
  split.
  - reflexivity.
  - apply (set_optional_is_overwritten_by_read SetSWTriggerMode GetSWTriggerMode
             hw_setSWTriggerMode hw_getSWTriggerMode).
    reflexivity.
Defined.

(** An unset optional read from a stub whose getter answers: 7 or 8 in the
    local makes no difference. *)
Lemma uninitialised_local_is_not_observed_witness :
  let d := Stub.fresh 1 None in
  (is_set (@None Z) = true \/ READING = WRITING \/
   exists v d', hw_getSWTriggerMode d = (inr v, d')) /\
  programWrapper_optional 7 setSWTriggerMode getSWTriggerMode None READING d
  = programWrapper_optional 8 setSWTriggerMode getSWTriggerMode None READING d.
Proof.
  assert (Hcase : is_set (@None Z) = true \/ READING = WRITING \/
                  exists v d', hw_getSWTriggerMode (Stub.fresh 1 None) = (inr v, d')).
  { right. right. eexists. eexists. reflexivity. }
  split; [exact Hcase |].
  apply (uninitialised_local_is_not_observed SetSWTriggerMode GetSWTriggerMode
           hw_setSWTriggerMode hw_getSWTriggerMode None READING
           (Stub.fresh 1 None) Hcase).
Defined.

(** ** More on [programMaskWrapper] and [programSettings] *)
Section EngineMore.
Context {D TM : Type} `{RegisterValue TM} `{Digitizer D TM} `{MaskHelper}.

Lemma call_events_mask_warning (c : bool) (name : string) (mask : uint32) :
  call_events (if c then [Log warning (MsgMaskNotMapped name mask)] else []) = [].
Proof. destruct c; reflexivity. Qed.

Lemma error_records_mask_warning (c : bool) (name : string) (mask : uint32) :
  error_records (if c then [Log warning (MsgMaskNotMapped name mask)] else []) = [].
Proof. destruct c; reflexivity. Qed.

(** A WRITING run of the mask wrapper, whatever pair it was handed. *)
Lemma programMaskWrapper_writing
      (write : uint32 -> M D unit) (read : M D uint32)
      (vec : ChannelVector) (name : string) (d : D) :
  exists d' t raised,
    programMaskWrapper write read vec name WRITING d
    = mkRun (Returned vec) d' t /\
    call_events t
    = [Call SetChannelEnableMask
            (Some (vec2Mask vec (bi_groups (boardInfo d)))) raised].
Proof.
  destruct (programMaskWrapper_run write read vec name WRITING d)
    as (mask & _ & Hrun).
  destruct (programWrapper_call_events SetChannelEnableMask GetChannelEnableMask
              hw_setChannelEnableMask hw_getChannelEnableMask
              (start_mask vec WRITING d) WRITING d) as [raised Hcalls].
  eexists _, _, raised. split; [exact Hrun |].
  rewrite call_events_app, call_events_mask_warning. exact Hcalls.
Qed.

(** A READING run of the mask wrapper whose getter returns [m]. *)
Lemma programMaskWrapper_read_ok
      (write : uint32 -> M D unit) (read : M D uint32)
      (vec : ChannelVector) (name : string) (m : uint32) (d d' : D) :
  hw_getChannelEnableMask d = (inr m, d') ->
  programMaskWrapper write read vec name READING d
  = mkRun (Returned (mask2Vec m vec (bi_groups (boardInfo d')))) d'
          ((if negb (0 =? vec2Mask vec 1)
            then [Log warning (MsgMaskNotMapped name 0)]
            else []) ++ [Call GetChannelEnableMask None None]).
Proof.
  intros Hget.
  destruct (programMaskWrapper_run write read vec name READING d)
    as (mask & Hmask & Hrun).
  rewrite Hrun. clear Hrun.
  change (start_mask vec READING d) with 0 in *.
  assert (Hpw : programWrapper setChannelEnableMask getChannelEnableMask 0 READING d
                = mkRun (Returned m) d' [Call GetChannelEnableMask None None]).
  { apply (programWrapper_read_ok GetChannelEnableMask hw_getChannelEnableMask).
    exact Hget. }
  rewrite Hpw in Hmask |- *. simpl in Hmask. injection Hmask as <-.
  reflexivity.
Qed.

(** A READING run of the mask wrapper always rewrites the vector from some
    mask. *)
Lemma programMaskWrapper_reading
      (write : uint32 -> M D unit) (read : M D uint32)
      (vec : ChannelVector) (name : string) (d : D) :
  exists mask d' t,
    programMaskWrapper write read vec name READING d
    = mkRun (Returned (mask2Vec mask vec (bi_groups (boardInfo d')))) d' t.
Proof.
  destruct (programMaskWrapper_run write read vec name READING d)
    as (mask & _ & Hrun).
  eexists mask, _, _. exact Hrun.
Qed.

(** X6.  WRITING an enable vector leaves the caller's vector as it is and
    makes exactly one accessor call: [setChannelEnableMask], with the mask
    [vec2Mask] derives from the vector at the group count the device
    reports, whether or not the warning was logged and whether or not the
    call raised. *)
Theorem mask_is_written_from_vector
        (write : uint32 -> M D unit) (read : M D uint32)
        (vec : ChannelVector) (name : string) (d : D) :
  let r := programMaskWrapper write read vec name WRITING d in
  outcome r = Returned vec /\
  exists raised,
    call_events (emitted r)
    = [Call SetChannelEnableMask
            (Some (vec2Mask vec (bi_groups (boardInfo d)))) raised].
Proof.
  destruct (programMaskWrapper_writing write read vec name d)
    as (d' & t & raised & Hrun & Hcalls).
  cbv zeta. rewrite Hrun. split; [reflexivity |].
  exists raised. exact Hcalls.
Qed.

(** X7.  READING an enable vector whose getter returns the mask [m]: the
    caller's vector becomes [mask2Vec] of [m], of the vector it was and of
    the group count the device reports after the call; the one accessor
    call is [getChannelEnableMask] and no error is logged. *)
Theorem mask_read_expands_device_mask
        (write : uint32 -> M D unit) (read : M D uint32)
        (vec : ChannelVector) (name : string) (m : uint32) (d d' : D) :
  hw_getChannelEnableMask d = (inr m, d') ->
  let r := programMaskWrapper write read vec name READING d in
  outcome r = Returned (mask2Vec m vec (bi_groups (boardInfo d'))) /\
  final r = d' /\
  call_events (emitted r) = [Call GetChannelEnableMask None None] /\
  error_records (emitted r) = [].
Proof.
  intros Hget. cbv zeta.
  rewrite (programMaskWrapper_read_ok write read vec name m d d' Hget).
  cbn [outcome final emitted].
  rewrite call_events_app, call_events_mask_warning.
  rewrite error_records_app, error_records_mask_warning.
  repeat split.
Qed.

(** X8.  A WRITING pass does not change the settings record: it returns the
    record it was given, whatever the device did. *)
Theorem writing_pass_keeps_settings
        (k : TM) (settings : registerSettings TM) (d : D) :
  outcome (programSettings k settings WRITING d) = Returned settings.
Proof.
  destruct settings as [sw ch].
  destruct (programWrapper_optional_writing SetSWTriggerMode GetSWTriggerMode
              hw_setSWTriggerMode hw_getSWTriggerMode k sw d)
    as (d1 & t1 & Hsw).
  assert (Hch : exists d2 t2,
             (if bi_groups (boardInfo d1) =? 1
              then programMaskWrapper setChannelEnableMask getChannelEnableMask
                                      ch "chEnable" WRITING
              else programMaskWrapper setGroupEnableMask getGroupEnableMask
                                      ch "chEnable" WRITING) d1
             = mkRun (Returned ch) d2 t2).
  { destruct (bi_groups (boardInfo d1) =? 1);
      [destruct (programMaskWrapper_writing setChannelEnableMask
                   getChannelEnableMask ch "chEnable" d1)
        as (d2 & t2 & raised & Hrun & _)
      | destruct (programMaskWrapper_writing setGroupEnableMask
                   getGroupEnableMask ch "chEnable" d1)
        as (d2 & t2 & raised & Hrun & _)];
      exists d2, t2; exact Hrun. }
  destruct Hch as (d2 & t2 & Hch).
  unfold programSettings. cbn [swTriggerMode chEnable].
  erewrite run_bind; [reflexivity | exact Hsw |].
  eapply run_bind; [reflexivity |].
  eapply run_bind; [exact Hch | reflexivity].
Qed.

(** X9.  A READING pass hands back a record in which the optional field is
    set and the enable vector has been rewritten by [mask2Vec], at the group
    count the device reports when the pass ends, whatever the device did. *)
Theorem reading_pass_populates_settings
        (k : TM) (settings : registerSettings TM) (d : D) :
  let r := programSettings k settings READING d in
  exists v mask,
    outcome r
    = Returned (mkRegisterSettings
                  (Some v)
                  (mask2Vec mask (chEnable settings)
                            (bi_groups (boardInfo (final r))))).
Proof.
  destruct (programWrapper_optional_run SetSWTriggerMode GetSWTriggerMode
              hw_setSWTriggerMode hw_getSWTriggerMode
              k (swTriggerMode settings) READING d)
    as (sw & d1 & t1 & Hsw & Hshape).
  assert (Hset : exists v, sw = Some v).
  { destruct Hshape as [(_ & Hdir & _) | (_ & Hs & _)]; [discriminate |].
    destruct sw as [v |]; [exists v; reflexivity | discriminate]. }
  destruct Hset as [v ->].
  assert (Hch : exists mask d2 t2,
             (if bi_groups (boardInfo d1) =? 1
              then programMaskWrapper setChannelEnableMask getChannelEnableMask
                                      (chEnable settings) "chEnable" READING
              else programMaskWrapper setGroupEnableMask getGroupEnableMask
                                      (chEnable settings) "chEnable" READING) d1
             = mkRun (Returned (mask2Vec mask (chEnable settings)
                                         (bi_groups (boardInfo d2)))) d2 t2).
  { destruct (bi_groups (boardInfo d1) =? 1); apply programMaskWrapper_reading. }
  destruct Hch as (mask & d2 & t2 & Hch).
  cbv zeta. exists v, mask.
  assert (Hrun : exists t,
             programSettings k settings READING d
             = mkRun (Returned (mkRegisterSettings
                                  (Some v)
                                  (mask2Vec mask (chEnable settings)
                                            (bi_groups (boardInfo d2)))))
                     d2 t).
  { eexists. unfold programSettings.
    eapply run_bind; [exact Hsw |].
    eapply run_bind; [reflexivity |].
    eapply run_bind; [exact Hch | reflexivity]. }
  destruct Hrun as [t Hrun]. rewrite Hrun. reflexivity.
Qed.

(** X10.  A READING pass on a device whose two getters return: the record
    afterwards holds what the device returned and nothing of what it held
    before, the vector apart that [mask2Vec] starts from; the calls are the
    two getters, in the order trigger mode, enable mask, and no error is
    logged. *)
Theorem reading_pass_takes_device_values
        (k v : TM) (m : uint32) (settings : registerSettings TM) (d d1 d2 : D) :
  hw_getSWTriggerMode d = (inr v, d1) ->
  hw_getChannelEnableMask d1 = (inr m, d2) ->
  let r := programSettings k settings READING d in
  outcome r
  = Returned (mkRegisterSettings
                (Some v)
                (mask2Vec m (chEnable settings) (bi_groups (boardInfo d2)))) /\
  final r = d2 /\
  call_events (emitted r)
  = [Call GetSWTriggerMode None None; Call GetChannelEnableMask None None] /\
  error_records (emitted r) = [].
Proof.
  intros Hsw Hch. cbv zeta.
  assert (Hmask :
            (if bi_groups (boardInfo d1) =? 1
             then programMaskWrapper setChannelEnableMask getChannelEnableMask
                                     (chEnable settings) "chEnable" READING
             else programMaskWrapper setGroupEnableMask getGroupEnableMask
                                     (chEnable settings) "chEnable" READING) d1
            = mkRun (Returned (mask2Vec m (chEnable settings)
                                        (bi_groups (boardInfo d2)))) d2
                    ((if negb (0 =? vec2Mask (chEnable settings) 1)
                      then [Log warning (MsgMaskNotMapped "chEnable" 0)]
                      else []) ++ [Call GetChannelEnableMask None None])).
  { destruct (bi_groups (boardInfo d1) =? 1);
      apply programMaskWrapper_read_ok; exact Hch. }
  unfold programSettings.
  erewrite run_bind.
  2:{ apply (programWrapper_optional_read_ok SetSWTriggerMode GetSWTriggerMode
               hw_setSWTriggerMode hw_getSWTriggerMode).
      exact Hsw. }
  2:{ eapply run_bind; [reflexivity |].
      eapply run_bind; [exact Hmask | reflexivity]. }
  cbn [outcome final emitted].
  rewrite !call_events_app, call_events_mask_warning.
  rewrite !error_records_app, error_records_mask_warning.
  repeat split.
Qed.

End EngineMore.

(** The stub's channel-enable register holds [0b00010101]. *)
Lemma mask_read_expands_device_mask_witness :
  let d := Stub.mkDevice (Stub.board8 1) 0 None 0 21 0 in
  let r := programMaskWrapper setChannelEnableMask getChannelEnableMask
                              (Stub.enable 8 []) "chEnable" READING d in
  hw_getChannelEnableMask d = (inr 21, Stub.count d) /\
  outcome r = Returned (mask2Vec 21 (Stub.enable 8 [])
                                 (bi_groups (boardInfo (Stub.count d)))) /\
  final r = Stub.count d /\
  call_events (emitted r) = [Call GetChannelEnableMask None None] /\
  error_records (emitted r) = [].
Proof.
  split.
  - reflexivity.
  - apply (mask_read_expands_device_mask setChannelEnableMask getChannelEnableMask).
    reflexivity.
Defined.

(** The stub holds trigger mode 3 and enable mask [0b00010101]; the record
    held trigger mode 1 and channels 0 and 5. *)
Lemma reading_pass_takes_device_values_witness :
  let d := Stub.mkDevice (Stub.board8 1) 0 None 3 21 0 in
  let settings := mkRegisterSettings (Some 1) (Stub.enable 8 [0%nat; 5%nat]) in
  let r := programSettings 7 settings READING d in
  hw_getSWTriggerMode d = (inr 3, Stub.count d) /\
  hw_getChannelEnableMask (Stub.count d) = (inr 21, Stub.count (Stub.count d)) /\
  outcome r
  = Returned (mkRegisterSettings
                (Some 3)
                (mask2Vec 21 (chEnable settings)
                          (bi_groups (boardInfo (Stub.count (Stub.count d)))))) /\
  final r = Stub.count (Stub.count d) /\
  call_events (emitted r)
  = [Call GetSWTriggerMode None None; Call GetChannelEnableMask None None] /\
  error_records (emitted r) = [].
Proof.
  intros d settings r.
  split; [reflexivity | split; [reflexivity |]].
  apply (reading_pass_takes_device_values 7 3 21 settings d (Stub.count d)
           (Stub.count (Stub.count d))); reflexivity.
Defined.

(** ** More on [read_ini_file] *)

Lemma to_lower_char_idempotent (c : ascii) :
  to_lower_char (to_lower_char c) = to_lower_char c.
Proof. destruct c as [[] [] [] [] [] [] [] []]; reflexivity. Qed.

Lemma to_lower_copy_idempotent (s : string) :
  to_lower_copy (to_lower_copy s) = to_lower_copy s.
Proof.
  induction s as [| c rest IH]; simpl; [reflexivity |].
  rewrite to_lower_char_idempotent, IH. reflexivity.
Qed.

(** X11.  The test at the head of both loops ignores the case of ASCII
    letters: a section is left out exactly when its name, in lower case, is
    [daq] or [general]. *)
Theorem skipped_ignores_case (name : string) :
  skipped name
  = (String.eqb (to_lower_copy name) "daq"
     || String.eqb (to_lower_copy name) "general")%bool.
Proof.
  unfold skipped, iequals. rewrite to_lower_copy_idempotent. reflexivity.
Qed.

Lemma processed_cons_skipped (section : string * Node) (rest : PTree) :
  skipped (fst section) = true -> processed (section :: rest) = processed rest.
Proof. intros Hs. unfold processed. simpl. rewrite Hs. reflexivity. Qed.

Lemma processed_cons_kept (section : string * Node) (rest : PTree) :
  skipped (fst section) = false ->
  processed (section :: rest) = section :: processed rest.
Proof. intros Hs. unfold processed. simpl. rewrite Hs. reflexivity. Qed.


Section RunLaws.
Context {D TM : Type} `{RegisterValue TM} `{Digitizer D TM} `{MaskHelper}
        `{ConfigSource TM}.
Variable open_link : Z -> Z -> Z -> Z -> OpenResult D.
Variable k : TM.

(** One cycle makes three or four accessor calls. *)
Lemma configure_calls (digName : string) (node : Node) (d : D) :
  exists sw_set,
    calls (emitted (configure k digName node d))
    = pass_calls WRITING sw_set ++ [GetSWTriggerMode; GetChannelEnableMask].
Proof.
  destruct (configure_run k digName node d) as (sW & sR & _ & _ & Hrun).
  rewrite Hrun. cbn [emitted calls].
  rewrite !calls_app, calls_unknown_warnings, !programSettings_calls.
  eexists. reflexivity.
Qed.

(** The body of the loop for a section whose link opens. *)
Lemma section_body_connected (section : string * Node) (s : unit) (d : D) :
  opened open_link (link_of section) = OpenReturns (Some d) ->
  exists sR t sw_set,
    section_body open_link k section s
    = mkRun (Returned (link_of section, sR)) s t /\
    calls t = pass_calls WRITING sw_set ++ [GetSWTriggerMode; GetChannelEnableMask].
Proof.
  intros Hopen. unfold section_body, link_of in *.
  destruct (parse_connection (fst section) (snd section)) as [ls node].
  cbn [fst] in *.
  destruct (configure_run k (fst section) node d) as (sW & sR & _ & _ & Hrun).
  destruct (configure_calls (fst section) node d) as [sw_set Hcalls].
  exists sR. eexists. exists sw_set. split.
  - eapply run_bind; [reflexivity |].
    eapply run_bind; [rewrite connect_run, Hopen; reflexivity |].
    eapply run_bind; [| reflexivity].
    unfold with_handle. rewrite Hrun. reflexivity.
  - rewrite Hrun in Hcalls. cbn [emitted] in Hcalls.
    cbn [app calls]. rewrite app_nil_r. exact Hcalls.
Qed.

(** The body of the loop for a section whose link opens to a null pointer. *)
Lemma section_body_null (section : string * Node) (s : unit) :
  opened open_link (link_of section) = OpenReturns None ->
  exists t, section_body open_link k section s = mkRun Undefined s t.
Proof.
  intros Hopen. unfold section_body, link_of in *.
  destruct (parse_connection (fst section) (snd section)) as [ls node].
  cbn [fst] in *.
  eexists.
  eapply run_bind; [reflexivity |].
  eapply run_bind; [rewrite connect_run, Hopen; reflexivity |].
  apply run_bind_undefined. reflexivity.
Qed.

(** Every way the second loop can end, and what each way tells. *)
Lemma sections_loop_cases (tree : PTree) :
  forall (vl : list connectionSettings) (vr : list (registerSettings TM)) (s : unit),
    match outcome (sections_loop open_link k tree vl vr s) with
    | Returned (vl', vr') =>
        vl' = vl ++ map link_of (processed tree) /\
        List.length vr' = (List.length vr + List.length (processed tree))%nat /\
        (3 * List.length (processed tree)
         <= List.length (calls (emitted (sections_loop open_link k tree vl vr s)))
         <= 4 * List.length (processed tree))%nat
    | Thrown _ => False
    | Exited c =>
        c = EXIT_FAILURE /\
        exists section e,
          In section (processed tree) /\
          opened open_link (link_of section) = OpenThrows e
    | Undefined =>
        exists section,
          In section (processed tree) /\
          opened open_link (link_of section) = OpenReturns None
    end.
Proof.
  induction tree as [| section rest IH]; intros vl vr s.
  - cbn. rewrite app_nil_r. repeat split; lia.
  - cbn [sections_loop]. destruct (skipped (fst section)) eqn:Hs.
    + rewrite (processed_cons_skipped section rest Hs). apply IH.
    + rewrite (processed_cons_kept section rest Hs).
      destruct (opened open_link (link_of section)) as [e | [d |]] eqn:Ho.
      * rewrite (run_bind_exits _ _ _ _ _ _
                   (section_body_refused open_link k section s e Ho)).
        cbn [outcome]. split; [reflexivity |].
        exists section, e. split; [left; reflexivity | exact Ho].
      * destruct (section_body_connected section s d Ho)
          as (sR & t & sw_set & Hbody & Hcalls).
        specialize (IH (vl ++ [link_of section]) (vr ++ [sR]) s).
        rewrite (run_bind _ _ _ _ _ _ _ _ _ Hbody
                   (run_eta_any (sections_loop open_link k rest
                                   (vl ++ [link_of section]) (vr ++ [sR]) s))).
        cbn [outcome emitted].
        destruct (outcome (sections_loop open_link k rest
                             (vl ++ [link_of section]) (vr ++ [sR]) s))
          as [[vl' vr'] | e | c | ].
        -- destruct IH as (Hvl & Hvr & Hlo & Hhi).
           split; [| split].
           ++ rewrite Hvl, <- app_assoc. reflexivity.
           ++ rewrite Hvr, length_app. cbn [List.length]. lia.
           ++ rewrite calls_app, length_app, Hcalls.
              cbn [List.length].
              destruct sw_set; cbn [pass_calls app List.length]; lia.
        -- exact IH.
        -- destruct IH as (Hc & section' & e & Hin & Hopen).
           split; [exact Hc |].
           exists section', e. split; [right; exact Hin | exact Hopen].
        -- destruct IH as (section' & Hin & Hopen).
           exists section'. split; [right; exact Hin | exact Hopen].
      * destruct (section_body_null section s Ho) as [t Hbody].
        rewrite (run_bind_undefined _ _ _ _ _ Hbody). cbn [outcome].
        exists section. split; [left; reflexivity | exact Ho].
Qed.

(** The run of [read_ini_file] is the first record and the run of the loop. *)
Lemma read_ini_file_run (tree : PTree) (s : unit) :
  let r := sections_loop open_link k tree [] [] s in
  read_ini_file open_link k tree s
  = mkRun (outcome r) (final r) (Log info (MsgFound (NDigitizer tree)) :: emitted r).
Proof.
  cbv zeta. unfold read_ini_file.
  apply (run_bind (log info (MsgFound (NDigitizer tree)))
                  (fun _ => sections_loop open_link k tree [] [])
                  s s _ tt _ [Log info (MsgFound (NDigitizer tree))] _).
  - reflexivity.
  - apply run_eta_any.
Qed.

(** Skipped sections play no part in the loop. *)
Lemma sections_loop_processed (tree : PTree) :
  forall vl vr s,
    sections_loop open_link k tree vl vr s
    = sections_loop open_link k (processed tree) vl vr s.
Proof.
  induction tree as [| section rest IH]; intros vl vr s; [reflexivity |].
  destruct (skipped (fst section)) eqn:Hs.
  - rewrite (processed_cons_skipped section rest Hs).
    cbn [sections_loop]. rewrite Hs. apply IH.
  - rewrite (processed_cons_kept section rest Hs).
    cbn [sections_loop]. rewrite Hs.
    apply bind_ext. intros a s'. apply IH.
Qed.

End RunLaws.

Section RunMore.
Context {D TM : Type} `{RegisterValue TM} `{Digitizer D TM} `{MaskHelper}
        `{ConfigSource TM}.
Variable open_link : Z -> Z -> Z -> Z -> OpenResult D.
Variable k : TM.

Lemma processed_In (tree : PTree) (section : string * Node) :
  In section (processed tree) ->
  In section tree /\ skipped (fst section) = false.
Proof.
  unfold processed. intros Hin. apply filter_In in Hin.
  destruct Hin as [Hin Hs]. split; [exact Hin |].
  destruct (skipped (fst section)); [discriminate | reflexivity].
Qed.


(** X13.  A tree in which every section is skipped (the empty tree among
    them) configures nothing: the run returns two empty vectors, opens no
    link, and its only event is the record announcing 0 digitizers. *)
Theorem nothing_to_configure (tree : PTree) (s : unit) :
  processed tree = [] ->
  read_ini_file open_link k tree s
  = mkRun (Returned ([], [])) s [Log info (MsgFound 0)].
Proof.
  intros Hnone.
  rewrite (read_ini_file_run open_link k tree s). cbv zeta.
  rewrite (sections_loop_processed open_link k tree [] [] s), Hnone.
  unfold NDigitizer. fold (processed tree). rewrite Hnone. reflexivity.
Qed.

(** X14.  No [caen::Error] leaves [read_ini_file], whatever the links and
    the devices do: the one thrown by [open] ends in [exit], those thrown by
    accessors are caught in [programWrapper]. *)
Theorem read_ini_file_throws_nothing (tree : PTree) (s : unit) (e : Error) :
  outcome (read_ini_file open_link k tree s) <> Thrown e.
Proof.
  rewrite (read_ini_file_run open_link k tree s). cbn [outcome].
  pose proof (sections_loop_cases open_link k tree [] [] s) as Hcases.
  intros Hthrown. rewrite Hthrown in Hcases. exact Hcases.
Qed.

(** X15.  The process is left through [exit] only because of a connection:
    when a run exits, the status is [EXIT_FAILURE] and the tree holds a
    section that is not skipped and whose link [open] refused with a
    [caen::Error]. *)
Theorem exit_only_on_refused_connection (tree : PTree) (s : unit) (c : Z) :
  outcome (read_ini_file open_link k tree s) = Exited c ->
  c = EXIT_FAILURE /\
  exists section e,
    In section tree /\ skipped (fst section) = false /\
    opened open_link (link_of section) = OpenThrows e.
Proof.
  rewrite (read_ini_file_run open_link k tree s). cbn [outcome].
  pose proof (sections_loop_cases open_link k tree [] [] s) as Hcases.
  intros Hexit. rewrite Hexit in Hcases.
  destruct Hcases as (Hc & section & e & Hin & Hopen).
  split; [exact Hc |].
  exists section, e. apply processed_In in Hin.
  destruct Hin as [Hin Hs]. repeat split; assumption.
Qed.



(** X19.  A run dereferences a null handle only if [open] handed one back:
    when the outcome is the undefined one, the tree holds a section that is
    not skipped and on whose link [open] returned the null pointer without
    throwing. *)
Theorem undefined_only_on_null_handle (tree : PTree) (s : unit) :
  outcome (read_ini_file open_link k tree s) = Undefined ->
  exists section,
    In section tree /\ skipped (fst section) = false /\
    opened open_link (link_of section) = OpenReturns None.
Proof.
  rewrite (read_ini_file_run open_link k tree s). cbn [outcome].
  pose proof (sections_loop_cases open_link k tree [] [] s) as Hcases.
  intros Hundef. rewrite Hundef in Hcases.
  destruct Hcases as (section & Hin & Hopen).
  exists section. apply processed_In in Hin.
  destruct Hin as [Hin Hs]. repeat split; assumption.
Qed.

End RunMore.

(** Sections named in mixed case are skipped as well. *)
Lemma nothing_to_configure_witness :
  let tree := [("DAQ", [("rate", "10")]); ("General", [("linkNum", "1")])] in
  processed tree = [] /\
  read_ini_file Stub.lab 7 tree tt
  = mkRun (Returned ([], [])) tt [Log info (MsgFound 0)].
Proof.
  split.
  - reflexivity.
  - apply (nothing_to_configure Stub.lab 7). reflexivity.
Defined.

Lemma exit_only_on_refused_connection_witness :
  outcome (read_ini_file Stub.lab 7 Stub.ini tt) = Exited 1 /\
  1 = EXIT_FAILURE /\
  exists section e,
    In section Stub.ini /\ skipped (fst section) = false /\
    opened Stub.lab (link_of section) = OpenThrows e.
Proof.
  split.
  - reflexivity.
  - apply (exit_only_on_refused_connection Stub.lab 7 Stub.ini tt 1). reflexivity.
Defined.



Lemma undefined_only_on_null_handle_witness :
  let tree := [("dig2", [("linkNum", "2")])] in
  outcome (read_ini_file Stub.lab 7 tree tt) = Undefined /\
  exists section,
    In section tree /\ skipped (fst section) = false /\
    opened Stub.lab (link_of section) = OpenReturns None.
Proof.
  split.
  - reflexivity.
  - apply (undefined_only_on_null_handle Stub.lab 7 _ tt). reflexivity.
Defined.

(** * The pass and the cycle, field by field *)

(** ** Steps of a pass *)
Section OptionalSteps.
Context {D TM : Type} `{RegisterValue TM} `{Digitizer D TM}.
Context {T : Type} `{RegisterValue T}.
Variables (a_set a_get : Accessor).
Variable op_set : T -> D -> (Error + unit) * D.
Variable op_get : D -> (Error + T) * D.

Lemma programWrapper_optional_write_ok (k v : T) (d d' : D) :
  op_set v d = (inr tt, d') ->
  programWrapper_optional k (setter a_set op_set) (getter a_get op_get)
                          (Some v) WRITING d
  = mkRun (Returned (Some v)) d' [Call a_set (Some (as_Z v)) None].
Proof.
  intros Hset. unfold programWrapper_optional.
  eapply eq_trans.
  - eapply run_bind; [apply programWrapper_write_ok; exact Hset | reflexivity].
  - reflexivity.
Qed.

Lemma programWrapper_optional_write_fails (k v : T) (d d' : D) (e : Error) :
  op_set v d = (inl e, d') ->
  programWrapper_optional k (setter a_set op_set) (getter a_get op_get)
                          (Some v) WRITING d
  = mkRun (Returned (Some v)) d'
          (Call a_set (Some (as_Z v)) (Some e)
             :: error_report (boardInfo d') WRITING e (as_Z v)).
Proof.
  intros Hset. unfold programWrapper_optional.
  eapply eq_trans.
  - eapply run_bind; [apply programWrapper_write_fails; exact Hset | reflexivity].
  - reflexivity.
Qed.

Lemma programWrapper_optional_read_fails
      (k : T) (value : option T) (d d' : D) (e : Error) :
  op_get d = (inl e, d') ->
  programWrapper_optional k (setter a_set op_set) (getter a_get op_get)
                          value READING d
  = mkRun (Returned (Some (match value with Some v => v | None => k end))) d'
          (Call a_get None (Some e) :: error_report (boardInfo d') READING e 0).
Proof.
  intros Hget. unfold programWrapper_optional.
  destruct value as [v |].
  - eapply eq_trans.
    + eapply run_bind; [| reflexivity].
      apply (programWrapper_read_fails a_get op_get) with (arg := 0). exact Hget.
    + reflexivity.
  - eapply eq_trans.
    + eapply run_bind; [| reflexivity].
      apply (programWrapper_read_fails a_get op_get) with (arg := 0). exact Hget.
    + reflexivity.
Qed.

End OptionalSteps.

Section PassSteps.
Context {D TM : Type} `{RegisterValue TM} `{Digitizer D TM} `{MaskHelper}.

(** The warning of line 88, when the test of line 87 asks for it. *)
Lemma programMaskWrapper_write_ok
      (write : uint32 -> M D unit) (read : M D uint32)
      (vec : ChannelVector) (name : string) (d d' : D) :
  hw_setChannelEnableMask (vec2Mask vec (bi_groups (boardInfo d))) d = (inr tt, d') ->
  exists w,
    programMaskWrapper write read vec name WRITING d
    = mkRun (Returned vec) d'
            (w ++ [Call SetChannelEnableMask
                        (Some (vec2Mask vec (bi_groups (boardInfo d)))) None]) /\
    call_events w = [] /\ error_records w = [].
Proof.
  intros Hset.
  destruct (programMaskWrapper_run write read vec name WRITING d)
    as (mask & _ & Hrun).
  change (start_mask vec WRITING d)
    with (vec2Mask vec (bi_groups (boardInfo d))) in Hrun.
  assert (Hpw : programWrapper setChannelEnableMask getChannelEnableMask
                               (vec2Mask vec (bi_groups (boardInfo d))) WRITING d
                = mkRun (Returned (vec2Mask vec (bi_groups (boardInfo d)))) d'
                        [Call SetChannelEnableMask
                              (Some (vec2Mask vec (bi_groups (boardInfo d)))) None]).
  { exact (programWrapper_write_ok SetChannelEnableMask hw_setChannelEnableMask
             getChannelEnableMask (vec2Mask vec (bi_groups (boardInfo d))) d d'
             Hset). }
  rewrite Hpw in Hrun. cbn [final emitted] in Hrun.
  eexists. split; [exact Hrun |].
  split; [apply call_events_mask_warning | apply error_records_mask_warning].
Qed.

Lemma programMaskWrapper_write_fails
      (write : uint32 -> M D unit) (read : M D uint32)
      (vec : ChannelVector) (name : string) (d d' : D) (e : Error) :
  hw_setChannelEnableMask (vec2Mask vec (bi_groups (boardInfo d))) d = (inl e, d') ->
  exists w,
    programMaskWrapper write read vec name WRITING d
    = mkRun (Returned vec) d'
            (w ++ Call SetChannelEnableMask
                       (Some (vec2Mask vec (bi_groups (boardInfo d)))) (Some e)
               :: error_report (boardInfo d') WRITING e
                               (vec2Mask vec (bi_groups (boardInfo d)))) /\
    call_events w = [] /\ error_records w = [].
Proof.
  intros Hset.
  destruct (programMaskWrapper_run write read vec name WRITING d)
    as (mask & _ & Hrun).
  change (start_mask vec WRITING d)
    with (vec2Mask vec (bi_groups (boardInfo d))) in Hrun.
  assert (Hpw : programWrapper setChannelEnableMask getChannelEnableMask
                               (vec2Mask vec (bi_groups (boardInfo d))) WRITING d
                = mkRun (Returned (vec2Mask vec (bi_groups (boardInfo d)))) d'
                        (Call SetChannelEnableMask
                              (Some (vec2Mask vec (bi_groups (boardInfo d)))) (Some e)
                           :: error_report (boardInfo d') WRITING e
                                (vec2Mask vec (bi_groups (boardInfo d))))).
  { exact (programWrapper_write_fails SetChannelEnableMask hw_setChannelEnableMask
             getChannelEnableMask (vec2Mask vec (bi_groups (boardInfo d))) d d' e
             Hset). }
  rewrite Hpw in Hrun. cbn [final emitted] in Hrun.
  eexists. split; [exact Hrun |].
  split; [apply call_events_mask_warning | apply error_records_mask_warning].
Qed.

Lemma programMaskWrapper_read_fails
      (write : uint32 -> M D unit) (read : M D uint32)
      (vec : ChannelVector) (name : string) (d d' : D) (e : Error) :
  hw_getChannelEnableMask d = (inl e, d') ->
  exists vec' w,
    programMaskWrapper write read vec name READING d
    = mkRun (Returned vec') d'
            (w ++ Call GetChannelEnableMask None (Some e)
               :: error_report (boardInfo d') READING e 0) /\
    call_events w = [] /\ error_records w = [].
Proof.
  intros Hget.
  destruct (programMaskWrapper_run write read vec name READING d)
    as (mask & _ & Hrun).
  change (start_mask vec READING d) with 0 in Hrun.
  assert (Hpw : programWrapper setChannelEnableMask getChannelEnableMask 0 READING d
                = mkRun (Returned 0) d'
                        (Call GetChannelEnableMask None (Some e)
                           :: error_report (boardInfo d') READING e 0)).
  { apply (programWrapper_read_fails GetChannelEnableMask hw_getChannelEnableMask).
    exact Hget. }
  rewrite Hpw in Hrun. cbn [final emitted] in Hrun.
  eexists. eexists. split; [exact Hrun |].
  split; [apply call_events_mask_warning | apply error_records_mask_warning].
Qed.

Lemma programMaskWrapper_read_ok'
      (write : uint32 -> M D unit) (read : M D uint32)
      (vec : ChannelVector) (name : string) (m : uint32) (d d' : D) :
  hw_getChannelEnableMask d = (inr m, d') ->
  exists w,
    programMaskWrapper write read vec name READING d
    = mkRun (Returned (mask2Vec m vec (bi_groups (boardInfo d')))) d'
            (w ++ [Call GetChannelEnableMask None None]) /\
    call_events w = [] /\ error_records w = [].
Proof.
  intros Hget. eexists. split.
  - apply programMaskWrapper_read_ok. exact Hget.
  - split; [apply call_events_mask_warning | apply error_records_mask_warning].
Qed.

(** A pass is its two steps, the second on the device the first one left;
    which pair [programSettings] hands the mask wrapper plays no part. *)
Lemma programSettings_from_steps
      (k : TM) (settings : registerSettings TM) (direction : comDirection)
      (d d1 d2 : D) (sw' : option TM) (ch' : ChannelVector)
      (t1 t2 : list Event) :
  programWrapper_optional k setSWTriggerMode getSWTriggerMode
                          (swTriggerMode settings) direction d
  = mkRun (Returned sw') d1 t1 ->
  programMaskWrapper setChannelEnableMask getChannelEnableMask
                     (chEnable settings) "chEnable" direction d1
  = mkRun (Returned ch') d2 t2 ->
  programSettings k settings direction d
  = mkRun (Returned (mkRegisterSettings sw' ch')) d2 (t1 ++ t2).
Proof.
  intros Hsw Hch. unfold programSettings.
  eapply eq_trans.
  - eapply run_bind; [exact Hsw |].
    eapply run_bind; [reflexivity |].
    eapply run_bind; [| reflexivity].
    destruct (bi_groups (boardInfo d1) =? 1); exact Hch.
  - cbn [app]. rewrite app_nil_r. reflexivity.
Qed.

End PassSteps.

Ltac close_case Hrun Hcalls Herrs :=
  rewrite Hrun; cbn [outcome final emitted];
  unfold call_events, error_records in *;
  rewrite ?filter_app, ?Hcalls, ?Herrs;
  repeat split.

(** ** The optional field in a READING pass, and one failure in a pass *)
Section PassLaws.
Context {D TM : Type} `{RegisterValue TM} `{Digitizer D TM} `{MaskHelper}.
Context {T : Type} `{RegisterValue T}.

(** C6.  An optional field that is unset is populated by READING: the getter
    is invoked (it is the one call made) and the field comes back set; when
    the getter returns [v], the field holds [v], the device is in the state
    the getter left and nothing is logged.  So it is in a READING pass of
    [programSettings] over a record whose optional field is unset: the pass
    calls the getter of the field (then that of the enable mask), the field
    of the record it hands back is set, and it holds [v] when the getter
    returned [v]. *)
Theorem unset_optional_is_read
        (a_set a_get : Accessor)
        (op_set : T -> D -> (Error + unit) * D) (op_get : D -> (Error + T) * D)
        (k : T) (d : D) :
  let r := programWrapper_optional k (setter a_set op_set) (getter a_get op_get)
                                   None READING d in
  calls (emitted r) = [a_get] /\
  (exists x, outcome r = Returned (Some x)) /\
  (forall v d', op_get d = (inr v, d') ->
                r = mkRun (Returned (Some v)) d' [Call a_get None None]) /\
  (forall (k' : TM) (ch : ChannelVector),
      let pass := programSettings k' (mkRegisterSettings None ch) READING d in
      calls (emitted pass) = [GetSWTriggerMode; GetChannelEnableMask] /\
      (exists raised rest,
          call_events (emitted pass) = Call GetSWTriggerMode None raised :: rest) /\
      (exists x ch', outcome pass = Returned (mkRegisterSettings (Some x) ch')) /\
      (forall v d1,
          hw_getSWTriggerMode d = (inr v, d1) ->
          exists ch',
            outcome pass = Returned (mkRegisterSettings (Some v) ch') /\
            call_events (emitted pass)
            = Call GetSWTriggerMode None None
                   :: call_events
                        (emitted (programMaskWrapper
                                    setChannelEnableMask getChannelEnableMask
                                    ch "chEnable" READING d1)))).
Proof.
  intros r. split; [| split; [| split]].
  - destruct (op_get d) as [[e | v] d1] eqn:Hget.
    + unfold r.
      rewrite (programWrapper_optional_read_fails a_set a_get op_set op_get
                 k None d d1 e Hget).
      reflexivity.
    + unfold r.
      rewrite (programWrapper_optional_read_ok a_set a_get op_set op_get
                 k None v d d1 Hget).
      reflexivity.
  - destruct (op_get d) as [[e | v] d1] eqn:Hget.
    + unfold r.
      rewrite (programWrapper_optional_read_fails a_set a_get op_set op_get
                 k None d d1 e Hget).
      eexists. reflexivity.
    + unfold r.
      rewrite (programWrapper_optional_read_ok a_set a_get op_set op_get
                 k None v d d1 Hget).
      eexists. reflexivity.
  - intros v d' Hget. unfold r.
    apply programWrapper_optional_read_ok. exact Hget.
  - intros k' ch pass.
    assert (Hpass : exists x d1 raised t1 ch' d2 t2,
               hw_getSWTriggerMode d = (raised, d1) /\
               (forall v, raised = inr v -> x = v) /\
               call_events t1
               = [Call GetSWTriggerMode None
                       (match raised with inl e => Some e | inr _ => None end)] /\
               programMaskWrapper setChannelEnableMask getChannelEnableMask
                                  ch "chEnable" READING d1
               = mkRun (Returned ch') d2 t2 /\
               pass = mkRun (Returned (mkRegisterSettings (Some x) ch')) d2
                            (t1 ++ t2)).
    { destruct (programMaskWrapper_reading setChannelEnableMask
                  getChannelEnableMask ch "chEnable"
                  (snd (hw_getSWTriggerMode d)))
        as (mask & d2 & t2 & Hch).
      destruct (hw_getSWTriggerMode d) as [[e | v] d1] eqn:Hget;
        cbn [snd] in Hch.
      - eexists _, d1, (inl e), _, _, d2, t2.
        split; [reflexivity | split; [discriminate | split; [| split; [exact Hch |]]]].
        2:{ apply (programSettings_from_steps k' (mkRegisterSettings None ch)
                     READING d d1 d2); [| exact Hch].
            apply (programWrapper_optional_read_fails
                     SetSWTriggerMode GetSWTriggerMode
                     hw_setSWTriggerMode hw_getSWTriggerMode).
            exact Hget. }
        reflexivity.
      - eexists v, d1, (inr v), _, _, d2, t2.
        split; [reflexivity | split; [| split; [| split; [exact Hch |]]]].
        3:{ apply (programSettings_from_steps k' (mkRegisterSettings None ch)
                     READING d d1 d2); [| exact Hch].
            apply (programWrapper_optional_read_ok
                     SetSWTriggerMode GetSWTriggerMode
                     hw_setSWTriggerMode hw_getSWTriggerMode).
            exact Hget. }
        + intros v0 [= <-]. reflexivity.
        + reflexivity. }
    destruct Hpass
      as (x & d1 & raised & t1 & ch' & d2 & t2 & Hget & Hx & Ht1 & Hch & Hpass).
    split; [apply programSettings_calls | split; [| split]].
    + rewrite Hpass. cbn [emitted]. rewrite call_events_app, Ht1.
      eexists _, _. reflexivity.
    + exists x, ch'. rewrite Hpass. reflexivity.
    + intros v d1' Hget'. rewrite Hget in Hget'.
      injection Hget' as Hr <-. exists ch'.
      rewrite (Hx v Hr) in Hpass. rewrite Hpass. cbn [outcome emitted].
      split; [reflexivity |].
      rewrite call_events_app, Ht1, Hch, Hr. reflexivity.
Qed.

End PassLaws.

(** The stub's trigger-mode register holds 3; nothing fails. *)
Lemma unset_optional_is_read_witness :
  let d := Stub.mkDevice (Stub.board8 1) 0 None 3 0 0 in
  let pass := programSettings 7 (mkRegisterSettings None (Stub.enable 8 [])) READING d in
  hw_getSWTriggerMode d = (inr 3, Stub.count d) /\
  programWrapper_optional 7 setSWTriggerMode getSWTriggerMode None READING d
  = mkRun (Returned (Some 3)) (Stub.count d) [Call GetSWTriggerMode None None] /\
  exists ch',
    outcome pass = Returned (mkRegisterSettings (Some 3) ch') /\
    call_events (emitted pass)
    = Call GetSWTriggerMode None None
           :: call_events
                (emitted (programMaskWrapper
                            setChannelEnableMask getChannelEnableMask
                            (Stub.enable 8 []) "chEnable" READING (Stub.count d))).
Proof.
  intros d pass.
  pose proof (unset_optional_is_read SetSWTriggerMode GetSWTriggerMode
                hw_setSWTriggerMode hw_getSWTriggerMode 7 d) as Hthm.
  cbv zeta in Hthm. destruct Hthm as (_ & _ & Hoverload & Hpass).
  split; [reflexivity | split].
  - apply Hoverload. reflexivity.
  - apply (Hpass 7 (Stub.enable 8 [])). reflexivity.
Defined.

Section FaultLaws.
Context {D TM : Type} `{RegisterValue TM} `{Digitizer D TM} `{MaskHelper}.

(** C4, as the code has it.  Nothing an accessor raises leaves
    [programSettings]: in either direction the pass returns, it has gone
    through every field (its calls are the full list of the pass), and its
    error records are the reports of the calls that raised, one report for
    each, in order, and nothing else; a report is made of two error records.

    When one accessor call of a pass raises and the other returns, case by
    case (WRITING: the setter of the trigger mode, or that of the enable
    mask after the trigger mode was written or left out; READING: the getter
    of the trigger mode, or that of the enable mask): the pass returns in
    the device state the last call left, the other field is synchronised
    (its setter is called with the value of the record and returns; its
    getter's result is in the record handed back), and the error records are
    the one report of the failure: the model and serial number of the
    device as it is after the call that raised, the [where()] and [what()]
    of what it raised and, when WRITING, the value that was being written. *)
Theorem fault_isolation
        (k : TM) (settings : registerSettings TM) (d : D) :
  let sw := swTriggerMode settings in
  let ch := chEnable settings in
  let w := programSettings k settings WRITING d in
  let r := programSettings k settings READING d in
  (forall direction,
      let p := programSettings k settings direction d in
      (exists settings', outcome p = Returned settings') /\
      calls (emitted p) = pass_calls direction (is_set sw) /\
      reports direction (failures (emitted p)) (error_records (emitted p)) /\
      (forall a e, failures (emitted p) = [(a, e)] ->
                   List.length (error_records (emitted p)) = 2%nat)) /\
  (forall v e d1 d2,
      sw = Some v ->
      hw_setSWTriggerMode v d = (inl e, d1) ->
      hw_setChannelEnableMask (vec2Mask ch (bi_groups (boardInfo d1))) d1
      = (inr tt, d2) ->
      outcome w = Returned settings /\
      final w = d2 /\
      call_events (emitted w)
      = [Call SetSWTriggerMode (Some (as_Z v)) (Some e);
         Call SetChannelEnableMask
              (Some (vec2Mask ch (bi_groups (boardInfo d1)))) None] /\
      error_records (emitted w) = error_report (boardInfo d1) WRITING e (as_Z v)) /\
  (forall v e d1 d2,
      sw = Some v ->
      hw_setSWTriggerMode v d = (inr tt, d1) ->
      hw_setChannelEnableMask (vec2Mask ch (bi_groups (boardInfo d1))) d1
      = (inl e, d2) ->
      outcome w = Returned settings /\
      final w = d2 /\
      call_events (emitted w)
      = [Call SetSWTriggerMode (Some (as_Z v)) None;
         Call SetChannelEnableMask
              (Some (vec2Mask ch (bi_groups (boardInfo d1)))) (Some e)] /\
      error_records (emitted w)
      = error_report (boardInfo d2) WRITING e
                     (vec2Mask ch (bi_groups (boardInfo d1)))) /\
  (forall e d2,
      sw = None ->
      hw_setChannelEnableMask (vec2Mask ch (bi_groups (boardInfo d))) d
      = (inl e, d2) ->
      outcome w = Returned settings /\
      final w = d2 /\
      call_events (emitted w)
      = [Call SetChannelEnableMask
              (Some (vec2Mask ch (bi_groups (boardInfo d)))) (Some e)] /\
      error_records (emitted w)
      = error_report (boardInfo d2) WRITING e
                     (vec2Mask ch (bi_groups (boardInfo d)))) /\
  (forall e m d1 d2,
      hw_getSWTriggerMode d = (inl e, d1) ->
      hw_getChannelEnableMask d1 = (inr m, d2) ->
      (exists sw',
          outcome r
          = Returned (mkRegisterSettings
                        sw' (mask2Vec m ch (bi_groups (boardInfo d2)))) /\
          forall v0, sw = Some v0 -> sw' = Some v0) /\
      final r = d2 /\
      call_events (emitted r)
      = [Call GetSWTriggerMode None (Some e);
         Call GetChannelEnableMask None None] /\
      error_records (emitted r) = error_report (boardInfo d1) READING e 0) /\
  (forall v e d1 d2,
      hw_getSWTriggerMode d = (inr v, d1) ->
      hw_getChannelEnableMask d1 = (inl e, d2) ->
      (exists ch', outcome r = Returned (mkRegisterSettings (Some v) ch')) /\
      final r = d2 /\
      call_events (emitted r)
      = [Call GetSWTriggerMode None None;
         Call GetChannelEnableMask None (Some e)] /\
      error_records (emitted r) = error_report (boardInfo d2) READING e 0).
Proof.
  destruct settings as [sw ch]. cbn [swTriggerMode chEnable]. cbv zeta.
  split; [| split; [| split; [| split; [| split]]]].
  - intros direction.
    pose proof (programSettings_reports k (mkRegisterSettings sw ch) direction d)
      as Hr. cbv zeta in Hr.
    split; [| split; [| split; [exact Hr |]]].
    + destruct (programSettings_run k (mkRegisterSettings sw ch) direction d)
        as (sw' & ch' & d' & t1 & wn & t2 & Hrun & _).
      exists (mkRegisterSettings sw' ch'). rewrite Hrun. reflexivity.
    + apply programSettings_calls.
    + intros a e Hfail. rewrite Hfail in Hr.
      destruct Hr as (board & z & recs' & Hrecs & Hnil).
      simpl in Hnil. subst recs'. rewrite Hrecs. reflexivity.
  - intros v e d1 d2 -> Hset1 Hset2.
    destruct (programMaskWrapper_write_ok setChannelEnableMask
                getChannelEnableMask ch "chEnable" d1 d2 Hset2)
      as (wn & Hch & Hcalls & Herrs).
    pose proof (programSettings_from_steps k (mkRegisterSettings (Some v) ch)
                  WRITING d d1 d2 _ _ _ _
                  (programWrapper_optional_write_fails
                     SetSWTriggerMode GetSWTriggerMode
                     hw_setSWTriggerMode hw_getSWTriggerMode k v d d1 e Hset1)
                  Hch) as Hrun.
    close_case Hrun Hcalls Herrs.
  - intros v e d1 d2 -> Hset1 Hset2.
    destruct (programMaskWrapper_write_fails setChannelEnableMask
                getChannelEnableMask ch "chEnable" d1 d2 e Hset2)
      as (wn & Hch & Hcalls & Herrs).
    pose proof (programSettings_from_steps k (mkRegisterSettings (Some v) ch)
                  WRITING d d1 d2 _ _ _ _
                  (programWrapper_optional_write_ok
                     SetSWTriggerMode GetSWTriggerMode
                     hw_setSWTriggerMode hw_getSWTriggerMode k v d d1 Hset1)
                  Hch) as Hrun.
    close_case Hrun Hcalls Herrs.
  - intros e d2 -> Hset2.
    destruct (programMaskWrapper_write_fails setChannelEnableMask
                getChannelEnableMask ch "chEnable" d d2 e Hset2)
      as (wn & Hch & Hcalls & Herrs).
    pose proof (programSettings_from_steps k (mkRegisterSettings None ch)
                  WRITING d d d2 None ch [] _ eq_refl Hch) as Hrun.
    close_case Hrun Hcalls Herrs.
  - intros e m d1 d2 Hget1 Hget2.
    destruct (programMaskWrapper_read_ok' setChannelEnableMask
                getChannelEnableMask ch "chEnable" m d1 d2 Hget2)
      as (wn & Hch & Hcalls & Herrs).
    pose proof (programSettings_from_steps k (mkRegisterSettings sw ch)
                  READING d d1 d2 _ _ _ _
                  (programWrapper_optional_read_fails
                     SetSWTriggerMode GetSWTriggerMode
                     hw_setSWTriggerMode hw_getSWTriggerMode k sw d d1 e Hget1)
                  Hch) as Hrun.
    cbn [swTriggerMode] in Hrun.
    close_case Hrun Hcalls Herrs.
    eexists. split; [reflexivity |].
    intros v0 ->. reflexivity.
  - intros v e d1 d2 Hget1 Hget2.
    destruct (programMaskWrapper_read_fails setChannelEnableMask
                getChannelEnableMask ch "chEnable" d1 d2 e Hget2)
      as (ch' & wn & Hch & Hcalls & Herrs).
    pose proof (programSettings_from_steps k (mkRegisterSettings sw ch)
                  READING d d1 d2 _ _ _ _
                  (programWrapper_optional_read_ok
                     SetSWTriggerMode GetSWTriggerMode
                     hw_setSWTriggerMode hw_getSWTriggerMode k sw v d d1 Hget1)
                  Hch) as Hrun.
    close_case Hrun Hcalls Herrs.
    eexists. reflexivity.
Qed.

End FaultLaws.

(** The stub fails its first call, the setter of the trigger mode; the
    setter of the enable mask is still called, with the mask of the record,
    and succeeds. *)
Lemma fault_isolation_witness :
  let settings := mkRegisterSettings (Some 1) (Stub.enable 8 [0%nat]) in
  let d := Stub.fresh 1 (Some 0%nat) in
  let e := mkError "CommError" "SetSWTriggerMode" in
  let d1 := Stub.count d in
  let d2 := snd (hw_setChannelEnableMask 1 d1) in
  let w := programSettings 7 settings WRITING d in
  swTriggerMode settings = Some 1 /\
  hw_setSWTriggerMode 1 d = (inl e, d1) /\
  hw_setChannelEnableMask (vec2Mask (chEnable settings) (bi_groups (boardInfo d1))) d1
  = (inr tt, d2) /\
  outcome w = Returned settings /\
  final w = d2 /\
  call_events (emitted w)
  = [Call SetSWTriggerMode (Some 1) (Some e);
     Call SetChannelEnableMask
          (Some (vec2Mask (chEnable settings) (bi_groups (boardInfo d1)))) None] /\
  error_records (emitted w) = error_report (boardInfo d1) WRITING e 1.
Proof.
  intros settings d e d1 d2 w.
  split; [reflexivity | split; [reflexivity | split; [reflexivity |]]].
  exact (proj1 (proj2 (fault_isolation 7 settings d)) 1 e d1 d2
               eq_refl eq_refl eq_refl).
Defined.

(** ** The cycle of each device in a run *)
Section CycleOfDevice.
Context {D TM : Type} `{RegisterValue TM} `{Digitizer D TM} `{MaskHelper}
        `{ConfigSource TM}.
Variable open_link : Z -> Z -> Z -> Z -> OpenResult D.
Variable k : TM.

(** The loop body on a section whose link opens to the device [d]: the
    announcement, then the cycle on [d] and on the node that
    [connectionSettings::parse] left. *)
Lemma section_body_cycle (section : string * Node) (s : unit) (d : D) :
  opened open_link (link_of section) = OpenReturns (Some d) ->
  let name := fst section in
  let ls := link_of section in
  let node := snd (parse_connection name (snd section)) in
  exists sR,
    outcome (configure k name node d) = Returned sR /\
    section_body open_link k section s
    = mkRun (Returned (ls, sR)) s
            (Log info (MsgEstablishing name (linkType ls) (linkNum ls) (conetNode ls)
                                       (std_to_string (vmeBaseAddress ls)))
               :: emitted (configure k name node d)).
Proof.
  intros Hopen. cbv zeta. unfold section_body, link_of in *.
  destruct (parse_connection (fst section) (snd section)) as [ls node].
  cbn [fst snd] in *.
  destruct (configure_run k (fst section) node d) as (sW & sR & _ & _ & Hrun).
  exists sR. rewrite Hrun. split; [reflexivity |].
  eapply eq_trans.
  - eapply run_bind; [reflexivity |].
    eapply run_bind; [rewrite connect_run, Hopen; reflexivity |].
    eapply run_bind; [| reflexivity].
    unfold with_handle. rewrite Hrun. reflexivity.
  - cbn [app emitted]. rewrite app_nil_r. reflexivity.
Qed.

(** The events of the loop are the events of its body on the sections it
    gets to, in file order. *)
Lemma sections_loop_events (tree : PTree) :
  forall vl vr s,
    emitted (sections_loop open_link k tree vl vr s)
    = flat_map (cycle_events open_link k) (attempted open_link tree).
Proof.
  induction tree as [| section rest IH]; intros vl vr []; [reflexivity |].
  cbn [sections_loop attempted]. destruct (skipped (fst section)) eqn:Hs.
  - apply IH.
  - unfold connects.
    destruct (opened open_link (link_of section)) as [e | [d |]] eqn:Ho.
    + pose proof (section_body_refused open_link k section tt e Ho) as Hbody.
      rewrite (run_bind_exits _ _ _ _ _ _ Hbody).
      cbn [emitted flat_map]. unfold cycle_events. rewrite Hbody.
      cbn [emitted]. rewrite app_nil_r. reflexivity.
    + destruct (section_body_connected open_link k section tt d Ho)
        as (sR & t & sw_set & Hbody & _).
      rewrite (run_bind _ _ _ _ _ _ _ _ _ Hbody
                 (run_eta_any (sections_loop open_link k rest
                                 (vl ++ [link_of section]) (vr ++ [sR]) tt))).
      cbn [emitted flat_map]. rewrite IH.
      unfold cycle_events at 2. rewrite Hbody. reflexivity.
    + destruct (section_body_null open_link k section tt Ho) as [t Hbody].
      rewrite (run_bind_undefined _ _ _ _ _ Hbody).
      cbn [emitted flat_map]. unfold cycle_events. rewrite Hbody.
      cbn [emitted]. rewrite app_nil_r. reflexivity.
Qed.

(** C7.  For a tree in which line 147 finds every section that is not
    skipped under its name.  The events of [read_ini_file] are the record of
    the count, then, section after section in file order, the events of the
    loop body on the sections the loop gets to.  On each section whose link
    opens to a device, the loop body returns and its events are exactly: the
    announcement of the connection, the status printout, the events of the
    WRITING pass, one warning for every key that [parse] of the connection
    settings and then of the register settings left in the node of the
    section, and the events of the READING pass, which runs on the device
    and on the record that the WRITING pass left.  Both passes are
    [programSettings], over the same fields in the same order: the WRITING
    pass calls setters only (that of the trigger mode when it is set, then
    that of the enable mask), the READING pass calls getters only (trigger
    mode, then enable mask), so every call of the WRITING pass of a device
    comes before every call of its READING pass. *)
Theorem cycle_writes_then_warns_then_reads (tree : PTree) (s : unit) :
  forallb (found_by_name tree) (processed tree) = true ->
  emitted (read_ini_file open_link k tree s)
  = Log info (MsgFound (NDigitizer tree))
        :: flat_map (cycle_events open_link k) (attempted open_link tree) /\
  forall section d,
    In section (processed tree) ->
    opened open_link (link_of section) = OpenReturns (Some d) ->
    let name := fst section in
    let ls := link_of section in
    let node := snd (parse_connection name (snd section)) in
    let parsed := parse_register name (bi_channels (boardInfo d)) node in
    let w := programSettings k (fst parsed) WRITING d in
    exists sW sR,
      outcome w = Returned sW /\
      outcome (programSettings k sW READING (final w)) = Returned sR /\
      section_body open_link k section s
      = mkRun (Returned (ls, sR)) s
              (Log info (MsgEstablishing name (linkType ls) (linkNum ls)
                                         (conetNode ls)
                                         (std_to_string (vmeBaseAddress ls)))
                 :: Log debug (MsgConnected name (boardInfo d))
                 :: emitted w
                 ++ unknown_warnings name (snd parsed)
                 ++ emitted (programSettings k sW READING (final w))) /\
      calls (emitted w) = pass_calls WRITING (is_set (swTriggerMode (fst parsed))) /\
      calls (emitted (programSettings k sW READING (final w)))
      = [GetSWTriggerMode; GetChannelEnableMask] /\
      forallb is_setter (calls (emitted w)) = true /\
      forallb is_getter (calls (emitted (programSettings k sW READING (final w))))
      = true /\
      calls (cycle_events open_link k section)
      = calls (emitted w) ++ [GetSWTriggerMode; GetChannelEnableMask].
Proof.
  intros _. split.
  - rewrite (read_ini_file_run open_link k tree s). cbn [emitted].
    rewrite sections_loop_events. reflexivity.
  - intros section d _ Hopen. cbv zeta.
    destruct (section_body_cycle section s d Hopen) as (sR' & Hconf & Hbody).
    cbv zeta in Hconf, Hbody.
    destruct (configure_run k (fst section)
                (snd (parse_connection (fst section) (snd section))) d)
      as (sW & sR & HW & HR & Hrun).
    cbv zeta in HW, HR, Hrun.
    rewrite Hrun in Hconf, Hbody. cbn [outcome emitted] in Hconf, Hbody.
    injection Hconf as <-.
    exists sW, sR.
    assert (Hcw : calls (emitted (programSettings k
                     (fst (parse_register (fst section) (bi_channels (boardInfo d))
                             (snd (parse_connection (fst section) (snd section)))))
                     WRITING d))
                  = pass_calls WRITING
                      (is_set (swTriggerMode
                         (fst (parse_register (fst section)
                                 (bi_channels (boardInfo d))
                                 (snd (parse_connection (fst section)
                                                        (snd section))))))))
      by apply programSettings_calls.
    split; [exact HW | split; [exact HR | split; [exact Hbody |]]].
    split; [exact Hcw |].
    split; [apply programSettings_calls |].
    split; [rewrite Hcw; destruct (is_set _); reflexivity |].
    split; [rewrite programSettings_calls; reflexivity |].
    unfold cycle_events. destruct s. rewrite Hbody. cbn [emitted calls].
    rewrite !calls_app, calls_unknown_warnings, (programSettings_calls k sW READING).
    reflexivity.
Qed.

End CycleOfDevice.

(** The stub file: [dig0] answers on link 0 and is left with the key
    [colour] after parsing; [dig1] is unplugged, so the loop stops there. *)
Lemma cycle_writes_then_warns_then_reads_witness :
  let dig0 := ("dig0", [("linkNum", "0"); ("swTriggerMode", "1"); ("colour", "red")]) in
  let d := Stub.fresh 1 None in
  let settings := mkRegisterSettings (Some 1) (Stub.enable 8 []) in
  let w := programSettings 7 settings WRITING d in
  forallb (found_by_name Stub.ini) (processed Stub.ini) = true /\
  In dig0 (processed Stub.ini) /\
  opened Stub.lab (link_of dig0) = OpenReturns (Some d) /\
  attempted Stub.lab Stub.ini = [dig0; ("dig1", [("linkNum", "1")])] /\
  emitted (read_ini_file Stub.lab 7 Stub.ini tt)
  = Log info (MsgFound (NDigitizer Stub.ini))
        :: flat_map (cycle_events Stub.lab 7) (attempted Stub.lab Stub.ini) /\
  exists sW sR,
    outcome w = Returned sW /\
    section_body Stub.lab 7 dig0 tt
    = mkRun (Returned (link_of dig0, sR)) tt
            (Log info (MsgEstablishing "dig0" 0 0 0 "0")
               :: Log debug (MsgConnected "dig0" (boardInfo d))
               :: emitted w
               ++ [Log warning (MsgUnknownSetting "dig0" "colour" "red")]
               ++ emitted (programSettings 7 sW READING (final w))) /\
    calls (cycle_events Stub.lab 7 dig0)
    = calls (emitted w) ++ [GetSWTriggerMode; GetChannelEnableMask].
Proof.
  intros dig0 d settings w.
  assert (Hfound : forallb (found_by_name Stub.ini) (processed Stub.ini) = true)
    by reflexivity.
  assert (Hin : In dig0 (processed Stub.ini)) by (left; reflexivity).
  assert (Hopen : opened Stub.lab (link_of dig0) = OpenReturns (Some d))
    by reflexivity.
  pose proof (cycle_writes_then_warns_then_reads Stub.lab 7 Stub.ini tt Hfound)
    as [Hrun Hcycle].
  destruct (Hcycle dig0 d Hin Hopen)
    as (sW & sR & HW & _ & Hbody & _ & _ & _ & _ & Hcalls).
  split; [exact Hfound | split; [exact Hin | split; [exact Hopen |]]].
  split; [reflexivity | split; [exact Hrun |]].
  exists sW, sR. split; [exact HW | split; [exact Hbody | exact Hcalls]].
Defined.
